(** * Calibration engine of car-audio-eq-pro (src/js/calibration.js)

    A shallow embedding of the [Calibration] class (the noise-floor gated
    variant: lines 303-673 of calibration.js) and of the part of
    [AudioProcessor] it reads (src/js/audio-processor.js).

    Number model.  A JavaScript Number that is finite is a real number
    ([R]); IEEE-754 rounding, and the rounding to single precision of a
    store into a [Float32Array], are not modelled.  [NaN] appears only
    where the code can produce it from finite data, namely from reading
    an array past its end ([undefined]) in the correction loop: the
    entries of a correction vector are [jsnum]s.  [-Infinity] appears
    only as the value of [Math.max()] on no arguments: [Math.max_of]
    returns an [option R] whose [None] is [-Infinity].  A bin that the
    analyser reports as [-Infinity] (silence) behaves in every comparison
    of this code like a level at or below the noise floor.  Overflow of
    [10^(v/20)] for absurdly large levels is outside the model.  What is
    proved of a value that goes through [Math.pow], [Math.sqrt] or
    [Math.log10] is proved of the exact value; the program's value
    agrees with it up to rounding, so an equation between such values is
    not a statement about the bits that the program returns.

    Exceptions are completions: [Return v] or [Throw e]. *)

From Stdlib Require Import Reals Lra Lia ZArith List String.
From stdpp Require Import gmap strings list.

Open Scope R_scope.

#[global] Instance Rlt_decision : RelDecision Rlt := Rlt_dec.
#[global] Instance Rle_decision : RelDecision Rle := Rle_dec.

(** ** Completions and JavaScript values *)

Inductive exn : Type :=
| Error (message : string)
| TypeError.                     (* message depends on the engine *)

Inductive completion (A : Type) : Type :=
| Return (value : A)
| Throw (e : exn).
Arguments Return {A} value.
Arguments Throw {A} e.

#[global] Instance completion_ret : MRet completion := fun A v => Return v.

#[global] Instance completion_bind : MBind completion :=
  fun A B k c =>
    match c with
    | Return v => k v
    | Throw e => Throw e
    end.

(** A Number that may be [NaN]. *)
Inductive jsnum : Type :=
| Num (x : R)
| NaN.

Definition jsnum_map (f : R -> R) (a : jsnum) : jsnum :=
  match a with
  | Num x => Num (f x)
  | NaN => NaN
  end.

Definition jsnum_map2 (f : R -> R -> R) (a b : jsnum) : jsnum :=
  match a, b with
  | Num x, Num y => Num (f x y)
  | _, _ => NaN
  end.

(** [a[i]] used as a Number: [undefined] converts to [NaN]. *)
Definition to_number (v : option R) : jsnum :=
  match v with
  | Some x => Num x
  | None => NaN
  end.

(** ** The [Math] object *)

Module Math.

(** [Math.pow(b, e)], used with bases 10 and 2 only. *)
Definition pow (b e : R) : R := Rpower b e.

Definition log10 (x : R) : R := ln x / ln 10.

Definition sqrt (x : R) : R := R_sqrt.sqrt x.

Definition floor (x : R) : Z := Zfloor x.

Definition ceil (x : R) : Z := Zceil x.

(** [Math.round]: nearest integer, a tie goes up. *)
Definition round (x : R) : R := IZR (Zfloor (x + / 2)).

Definition max (a b : R) : R := Rmax a b.

Definition min (a b : R) : R := Rmin a b.

(** [Math.max(...xs)]; [None] is [-Infinity], the value on no arguments. *)
Definition max_of (xs : list R) : option R :=
  fold_left
    (fun acc x => Some (match acc with Some m => Rmax m x | None => x end))
    xs None.

End Math.

(** ** AudioProcessor: the 31 ISO bands *)

(** [this.frequencies] of audio-processor.js; 31.5 is written 63/2. *)
Definition frequencies : list R :=
  [20; 25; 63/2; 40; 50; 63; 80; 100; 125; 160;
   200; 250; 315; 400; 500; 630; 800; 1000; 1250; 1600;
   2000; 2500; 3150; 4000; 5000; 6300; 8000; 10000; 12500; 16000; 20000].

Definition getFrequencies : list R := frequencies.

(** ** The Calibration object *)

Record Calibration : Type := mkCalibration {
  sampleRate : R;                        (* audioProcessor.context.sampleRate *)
  targetCurves : gmap string (list R);
  measurementData : list (list R);
  referenceLevel : R;
  noiseFloor : R
}.

Definition generateHarmanCurve : list R :=
  map (fun freq =>
         if decide (freq < 100) then 6
         else if decide (freq < 200) then 3
         else if decide (freq < 1000) then 0
         else if decide (freq < 10000) then -2
         else -4)
      getFrequencies.

(** 3.33 is written 333/100. *)
Definition generateBKCurve : list R :=
  map (fun freq =>
         let logFreq := Math.log10 freq in
         10 - (logFreq - 1) * (333/100))
      getFrequencies.

Definition constructor (rate : R) : Calibration :=
  {| sampleRate := rate;
     targetCurves :=
       <["flat" := replicate 31 0]>
       (<["harman" := generateHarmanCurve]>
       (<["b&k" := generateBKCurve]>
       (<["custom" := replicate 31 0]> ∅)));
     measurementData := [];
     referenceLevel := -20;
     noiseFloor := -80 |}.

Definition set_measurementData (this : Calibration) (d : list (list R))
  : Calibration :=
  {| sampleRate := sampleRate this;
     targetCurves := targetCurves this;
     measurementData := d;
     referenceLevel := referenceLevel this;
     noiseFloor := noiseFloor this |}.

Definition set_targetCurves (this : Calibration) (m : gmap string (list R))
  : Calibration :=
  {| sampleRate := sampleRate this;
     targetCurves := m;
     measurementData := measurementData this;
     referenceLevel := referenceLevel this;
     noiseFloor := noiseFloor this |}.

(** ** collectMeasurements *)

(** The state of one [collectMeasurements] call: the local [discardCount]
    and the object with its [measurementData]. *)
Record collecting : Type := mkCollecting {
  discardCount : nat;
  collector : Calibration
}.

(** One run of the closure [measure] on the frame that
    [getFloatFrequencyData] wrote into [dataArray].  The frame is pushed
    as a copy ([new Float32Array(dataArray)]). *)
Definition measure (st : collecting) (dataArray : list R) : collecting :=
  let this := collector st in
  if decide (0 < discardCount st)%nat then
    {| discardCount := discardCount st - 1; collector := this |}
  else
    match Math.max_of dataArray with
    | Some maxLevel =>
        if decide (noiseFloor this < maxLevel) then
          {| discardCount := discardCount st;
             collector :=
               set_measurementData this (measurementData this ++ [dataArray]) |}
        else st
    | None => st                                   (* -Infinity > floor *)
    end.

(** [frames]: what the analyser delivers at the successive calls of
    [measure] until the duration has elapsed. *)
Definition collectMeasurements (this : Calibration) (frames : list (list R))
  : Calibration :=
  collector
    (fold_left measure frames {| discardCount := 10; collector := this |}).

Definition measureWithMusic (this : Calibration) (frames : list (list R))
  : Calibration :=
  collectMeasurements (set_measurementData this []) frames.

Definition measureWithTestSignal (this : Calibration) (frames : list (list R))
  : Calibration :=
  collectMeasurements (set_measurementData this []) frames.

(** ** averageMeasurements *)

(** The body of [for (const measurement of this.measurementData)] at
    bin [i]; [measurement[i]] past the end is [undefined], and
    [undefined > noiseFloor] is false. *)
Definition accumulate_power (floor : R) (i : nat) (acc : R * nat)
    (measurement : list R) : R * nat :=
  let '(sum, count) := acc in
  match measurement !! i with
  | Some v =>
      if decide (floor < v) then
        let linear := Math.pow 10 (v / 20) in
        (sum + linear * linear, S count)
      else acc
  | None => acc
  end.

(** The value stored into [averaged[i]], in exact arithmetic: the
    roundings of [Math.pow], [Math.sqrt], [Math.log10] and of the store
    into the [Float32Array] are left out. *)
Definition average_bin (this : Calibration) (i : nat) : R :=
  let '(sum, count) :=
    fold_left (accumulate_power (noiseFloor this) i)
              (measurementData this) (0, 0%nat) in
  if decide (0 < count)%nat then
    let avgLinear := Math.sqrt (sum / INR count) in
    20 * Math.log10 avgLinear
  else noiseFloor this.

(** [averaged] starts as [length] zeros and is written at 0, 1, ... *)
Definition averageMeasurements (this : Calibration) : completion (list R) :=
  match measurementData this with
  | [] => Throw (Error "No measurement data")
  | first :: _ =>
      let length := List.length first in
      Return
        (fold_left (fun averaged i => <[i := average_bin this i]> averaged)
                   (seq 0 length) (replicate length 0))
  end.

(** ** extractFrequencyResponse *)

(** The state of the bin loop: [sum], [count], and the indices at which
    [fftData] has been read so far (a ghost log, most recent first). *)
Record scan : Type := mkScan {
  scan_sum : R;
  scan_count : nat;
  scan_reads : list Z
}.

(** Body of the loop at [bin]: [fftData[bin]] is evaluated only when
    [bin >= 0] holds ([&&] short-circuits). *)
Definition scan_bin (floor : R) (fftData : list R) (bin : Z) (st : scan)
  : scan :=
  if decide (0 <= bin)%Z then
    match fftData !! Z.to_nat bin with
    | Some v =>
        if decide (floor < v) then
          {| scan_sum := scan_sum st + v;
             scan_count := S (scan_count st);
             scan_reads := bin :: scan_reads st |}
        else
          {| scan_sum := scan_sum st;
             scan_count := scan_count st;
             scan_reads := bin :: scan_reads st |}
    | None =>
        {| scan_sum := scan_sum st;
           scan_count := scan_count st;
           scan_reads := bin :: scan_reads st |}
    end
  else st.

(** [for (let bin = startBin; bin <= endBin && bin < fftData.length; bin++)],
    at most [fuel] iterations. *)
Fixpoint scan_bins (fuel : nat) (floor : R) (fftData : list R)
    (bin endBin : Z) (st : scan) : scan :=
  match fuel with
  | O => st
  | S fuel' =>
      if decide (bin <= endBin)%Z then
        if decide (bin < Z.of_nat (length fftData))%Z then
          scan_bins fuel' floor fftData (bin + 1) endBin
                    (scan_bin floor fftData bin st)
        else st
      else st
  end.

(** One band: the pushed value and the reads it made. *)
Definition extract_band (floor binWidth : R) (fftData : list R) (freq : R)
  : R * list Z :=
  let centerBin := freq / binWidth in
  let startBin := Math.floor (centerBin - 1) in
  let endBin := Math.ceil (centerBin + 1) in
  let st :=
    scan_bins (Z.to_nat (endBin - startBin + 1)) floor fftData startBin endBin
              {| scan_sum := 0; scan_count := 0; scan_reads := [] |} in
  (if decide (0 < scan_count st)%nat
   then scan_sum st / INR (scan_count st)
   else floor,
   scan_reads st).

(** [sampleRate] is an AudioContext's rate, a positive number.  For an
    empty [fftData] JavaScript gets [binWidth = Infinity] and
    [centerBin = 0]; so does this definition, [x / 0] being [0] in [R]. *)
Definition binWidth_of (this : Calibration) (fftData : list R) : R :=
  let nyquist := sampleRate this / 2 in
  nyquist / INR (length fftData).

(** The response together with every index of [fftData] that was read. *)
Definition extractFrequencyResponse_logged (this : Calibration)
    (fftData targetFrequencies : list R) : list R * list Z :=
  let binWidth := binWidth_of this fftData in
  fold_left
    (fun '(response, reads) freq =>
       let '(v, r) := extract_band (noiseFloor this) binWidth fftData freq in
       (response ++ [v], reads ++ r))
    targetFrequencies ([], []).

Definition extractFrequencyResponse (this : Calibration)
    (fftData targetFrequencies : list R) : list R :=
  fst (extractFrequencyResponse_logged this fftData targetFrequencies).

(** ** applySmoothing *)

(** The object literal indexed by [smoothingType], with [|| 1/3]. *)
Definition octaveFractions : gmap string R :=
  <["1/3" := 1/3]> (<["1/6" := 1/6]> (<["1/12" := 1/12]> ∅)).

Definition octaveFraction_of (smoothingType : string) : R :=
  default (1/3) (octaveFractions !! smoothingType).

(** The inner loop over [j]: [(sum, count)] of the entries of [data]
    above the floor at the bands inside [lowerBound, upperBound];
    [data[j]] past the end is [undefined]. *)
Definition accumulate_window (floor lowerBound upperBound : R)
    (data : list R) (acc : R * nat) (jf : nat * R) : R * nat :=
  let '(sum, count) := acc in
  let '(j, fj) := jf in
  if decide (lowerBound <= fj) then
    if decide (fj <= upperBound) then
      match data !! j with
      | Some v => if decide (floor < v) then (sum + v, S count) else acc
      | None => acc
      end
    else acc
  else acc.

(** The update of [smoothed] at [i], if any; [frequencies[i]] past the
    end is [undefined], every comparison with it is false. *)
Definition smooth_band (floor octaveFraction : R) (data : list R) (i : nat)
  : option R :=
  match getFrequencies !! i with
  | Some centerFreq =>
      let lowerBound := centerFreq * Math.pow 2 (- octaveFraction / 2) in
      let upperBound := centerFreq * Math.pow 2 (octaveFraction / 2) in
      let '(sum, count) :=
        fold_left (accumulate_window floor lowerBound upperBound data)
                  (imap pair getFrequencies) (0, 0%nat) in
      if decide (0 < count)%nat then Some (sum / INR count) else None
  | None => None
  end.

Definition applySmoothing (this : Calibration) (data : list R)
    (smoothingType : string) : list R :=
  let octaveFraction := octaveFraction_of smoothingType in
  fold_left
    (fun smoothed i =>
       match smooth_band (noiseFloor this) octaveFraction data i with
       | Some v => <[i := v]> smoothed
       | None => smoothed
       end)
    (seq 0 (length data)) data.

(** ** calculateCorrections and smoothCorrections *)

Definition quantize (x : R) : R := Math.round (x * 2) / 2.

(** [smoothed[i]] at an interior index, from the three neighbours in
    [corrections]. *)
Definition smooth_at (corrections : list jsnum) (i : nat) : jsnum :=
  let a := default NaN (corrections !! (i - 1)%nat) in
  let b := default NaN (corrections !! i) in
  let c := default NaN (corrections !! (i + 1)%nat) in
  let sum := jsnum_map2 Rplus (jsnum_map2 Rplus a b) c in
  jsnum_map quantize (jsnum_map (fun s => s / 3) sum).

(** [for (let i = 1; i < smoothed.length - 1; i++)]. *)
Definition smoothCorrections (corrections : list jsnum) : list jsnum :=
  fold_left (fun smoothed i => <[i := smooth_at corrections i]> smoothed)
            (seq 1 (length corrections - 2)) corrections.

(** The body of the correction loop at band [i]. *)
Definition correction_at (targetCurve normalizedResponse : list R) (i : nat)
  : jsnum :=
  let target := to_number (targetCurve !! i) in
  let measured := to_number (normalizedResponse !! i) in
  let correction := jsnum_map2 Rminus target measured in
  let correction := jsnum_map (fun c => c * (7/10)) correction in
  let correction :=
    jsnum_map (fun c => Math.max (-10) (Math.min 10 c)) correction in
  jsnum_map quantize correction.

(** [for (let i = 0; i < frequencies.length; i++)] with its pushes;
    [targetCurve[i]] throws when [targetCurve] is [undefined]. *)
Definition correction_loop (targetCurve : option (list R))
    (normalizedResponse : list R) (n : nat) : completion (list jsnum) :=
  fold_left
    (fun acc i =>
       corrections ← acc;
       match targetCurve with
       | Some curve =>
           Return (corrections ++ [correction_at curve normalizedResponse i])
       | None => Throw TypeError
       end)
    (seq 0 n) (Return []).

Definition calculateCorrections (this : Calibration)
    (targetCurveName smoothing : string) : completion (list jsnum) :=
  if decide (length (measurementData this) = 0%nat) then
    Throw (Error "No valid measurement data collected")
  else
    let targetCurve := targetCurves this !! targetCurveName in
    let frequencies := getFrequencies in
    avgMeasurement ← averageMeasurements this;
    let measuredResponse :=
      extractFrequencyResponse this avgMeasurement frequencies in
    let smoothedResponse := applySmoothing this measuredResponse smoothing in
    (* Math.max() is -Infinity only for an empty smoothedResponse, whose
       map is empty whatever the maximum *)
    let normalizedResponse :=
      match Math.max_of smoothedResponse with
      | Some maxResponse =>
          map (fun v => v - maxResponse + referenceLevel this) smoothedResponse
      | None => []
      end in
    corrections ←
      correction_loop targetCurve normalizedResponse (length frequencies);
    Return (smoothCorrections corrections).

(** ** Definitions that follow the specification's wording *)

(** The snapshot values at bin [i] strictly above the floor. *)
Definition contributions (floor : R) (i : nat) (data : list (list R))
  : list R :=
  filter (fun v => floor < v) (omap (fun m : list R => m !! i) data).

Definition sum_list (xs : list R) : R := foldr Rplus 0 xs.

(** [20*log10(sqrt(S/c))] with [S] the sum of [(10^(v/20))^2]. *)
Definition power_mean_dB (vs : list R) : R :=
  let S := sum_list (map (fun v => (Math.pow 10 (v / 20)) ^ 2) vs) in
  let c := INR (length vs) in
  20 * Math.log10 (Math.sqrt (S / c)).

Definition spec_average_bin (floor : R) (i : nat) (data : list (list R)) : R :=
  let vs := contributions floor i data in
  if decide (length vs = 0%nat) then floor else power_mean_dB vs.

(** A frame whose peak, [Math.max(...dataArray)], is strictly above the
    floor. *)
Definition peak_above (floor : R) (frame : list R) : Prop :=
  match Math.max_of frame with
  | Some maxLevel => floor < maxLevel
  | None => False
  end.

#[global] Instance peak_above_dec (floor : R) (frame : list R)
  : Decision (peak_above floor frame).
Proof. unfold peak_above. destruct (Math.max_of frame); apply _. Defined.

Definition mean (vs : list R) : R := sum_list vs / INR (length vs).

(** The values of [data] strictly above the floor at the bands whose
    center frequency lies in [[lower, upper]]. *)
Definition window_values_of (floor lower upper : R) (data : list R)
    (bands : list (nat * R)) : list R :=
  omap (fun jf : nat * R =>
          if decide (lower <= snd jf <= upper) then
            match data !! fst jf with
            | Some v => if decide (floor < v) then Some v else None
            | None => None
            end
          else None)
       bands.

Definition window_values (floor lower upper : R) (data : list R) : list R :=
  window_values_of floor lower upper data (imap pair frequencies).

(** Band [i] smoothed over the window [[lower f, upper f]] around its
    center frequency [f]: the mean of the window's values, or the
    original value when the window has none. *)
Definition smoothed_over (lower upper : R -> R) (floor : R) (data : list R)
    (i : nat) : option R :=
  match frequencies !! i, data !! i with
  | Some f, Some x =>
      let vs := window_values floor (lower f) (upper f) data in
      Some (if decide (vs = []) then x else mean vs)
  | _, _ => None
  end.

(** The window of applySmoothing, [f*2^(-q/2), f*2^(q/2)]. *)
Definition window_lower (q f : R) : R := f * Math.pow 2 (- q / 2).
Definition window_upper (q f : R) : R := f * Math.pow 2 (q / 2).

(** The upper end [f*2*2^(q/2)], one octave higher. *)
Definition window_upper_octave (q f : R) : R := f * 2 * Math.pow 2 (q / 2).

(** A response that is 3 dB at 25 Hz and 0 dB at the 30 other bands. *)
Definition bump_response : list R := 0 :: 3 :: replicate 29 0.

(** A correction entry that is a number in [-10, 10] and an integer
    multiple of 0.5. *)
Definition valid_correction (c : jsnum) : Prop :=
  exists v, c = Num v /\ -10 <= v <= 10 /\ exists k : Z, v = IZR k * (1/2).

(** The end-to-end scenario: a 4096-bin spectrum (fftSize 8192) at
    48 kHz that is -20 dB at the bins from 100 Hz to 10 kHz and -60 dB
    elsewhere, retained 20 times. *)
Definition scenario_snapshot : list R :=
  map (fun k =>
         let freq := INR k * (24000 / 4096) in
         if decide (100 <= freq <= 10000) then -20 else -60)
      (seq 0 4096).

Definition scenario : Calibration :=
  set_measurementData (constructor 48000) (replicate 20 scenario_snapshot).

(** What a caller can do to the public field [targetCurves]:
    [calibration.targetCurves.custom = curve] and
    [delete calibration.targetCurves.custom].  The class itself has no
    method that sets or validates a custom curve. *)
Definition assign_custom (this : Calibration) (curve : list R) : Calibration :=
  set_targetCurves this (<["custom" := curve]> (targetCurves this)).


(** Two retained two-bin snapshots, for instantiating the statements. *)
Definition example_session : Calibration :=
  set_measurementData (constructor 48000) [[-20; -90]; [-20; -90]].

(** The gain that [generateHarmanCurve] gives to a frequency. *)
Definition harman_gain (freq : R) : R :=
  if decide (freq < 100) then 6
  else if decide (freq < 200) then 3
  else if decide (freq < 1000) then 0
  else if decide (freq < 10000) then -2
  else -4.

(** The gain that [generateBKCurve] gives to a frequency. *)
Definition bk_gain (freq : R) : R :=
  let logFreq := Math.log10 freq in
  10 - (logFreq - 1) * (333/100).

(** What the bin loop keeps: the sum lies between [count] times the
    floor and [count] times a level [top] that bounds the spectrum. *)
Definition scan_between (floor top : R) (st : scan) : Prop :=
  INR (scan_count st) * floor <= scan_sum st <= INR (scan_count st) * top.

(** The property names that every JavaScript object inherits from
    [Object.prototype].  Indexing an object with one of them yields the
    inherited member, not [undefined]; the finite maps of this file
    model objects for all other keys. *)
Definition Object_prototype_properties : list string :=
  ["constructor"; "hasOwnProperty"; "isPrototypeOf"; "propertyIsEnumerable";
   "toLocaleString"; "toString"; "valueOf"; "__proto__";
   "__defineGetter__"; "__defineSetter__"; "__lookupGetter__";
   "__lookupSetter__"]%string.

(** ** calibrate *)

(** The object together with its flag [isCalibrating]. *)
Record session : Type := mkSession {
  isCalibrating : bool;
  calibration : Calibration
}.

(** The argument of [calibrate]; a property that is absent takes its
    default in the destructuring: 10000, 'flat', '1/3', false. *)
Record options : Type := mkOptions {
  duration : option R;
  targetCurve : option string;
  smoothing : option string;
  useTestSignal : option bool
}.

(** How [getUserMedia] settles: with a stream, or rejected with a
    DOMException of the given name. *)
Inductive microphone : Type :=
| Granted
| Rejected (name : string).

(** What [calibrate] throws: an error of the class itself, or the
    rejection of [getUserMedia] passed on. *)
Inductive thrown : Type :=
| Thrown (e : exn)
| DOMException (name : string).

Definition idle (this : Calibration) : session :=
  {| isCalibrating := false; calibration := this |}.

(** [calibrate(options)], given how the microphone request settles and
    the frames the analyser delivers during the measurement.  The guard
    stands before the [try], so its throw leaves the flag alone; the
    [finally] clears the flag on every other path.  The [catch] turns a
    rejection named 'NotAllowedError' into
    [Error('Microphone access denied')] and passes every other error on.
    Status messages and the audio graph are not part of the state. *)
Definition calibrate (st : session) (opts : options) (mic : microphone)
    (frames : list (list R)) : (list jsnum + thrown) * session :=
  if isCalibrating st then
    (inr (Thrown (Error "Calibration already in progress")), st)
  else
    let this := calibration st in
    let targetCurve := default "flat"%string (targetCurve opts) in
    let smoothing := default "1/3"%string (smoothing opts) in
    let useTestSignal := default false (useTestSignal opts) in
    match mic with
    | Rejected name =>
        (inr (if decide (name = "NotAllowedError"%string)
              then Thrown (Error "Microphone access denied")
              else DOMException name),
         idle this)
    | Granted =>
        let measured :=
          if useTestSignal then measureWithTestSignal this frames
          else measureWithMusic this frames in
        match calculateCorrections measured targetCurve smoothing with
        | Return corrections => (inl corrections, idle measured)
        | Throw e => (inr (Thrown e), idle measured)
        end
    end.

(** ** Calibration profiles in localStorage *)

(** A profile as [JSON.parse] gives it back: [JSON.stringify] writes a
    NaN entry of [corrections] as [null], here [None]. *)
Record profile : Type := mkProfile {
  profile_corrections : list (option R);
  profile_date : string;
  profile_targetCurve : string
}.

Definition to_json (c : jsnum) : option R :=
  match c with
  | Num x => Some x
  | NaN => None
  end.

(** The item 'calibrationProfiles' of localStorage: absent, or the JSON
    text of an object, taken as the map from profile names to profiles
    that it denotes.  Names inherited from [Object.prototype] are
    outside this model. *)
Definition storage : Type := option (gmap string profile).

(** [JSON.parse(localStorage.getItem('calibrationProfiles') || '{}')]. *)
Definition stored_profiles (item : storage) : gmap string profile :=
  default ∅ item.

(** [now] is [new Date().toISOString()]. *)
Definition saveProfile (name : string) (corrections : list jsnum)
    (now : string) (item : storage) : storage :=
  let profiles := stored_profiles item in
  Some (<[name := {| profile_corrections := map to_json corrections;
                     profile_date := now;
                     profile_targetCurve := "custom" |}]> profiles).

(** [profiles[name] || null]: a stored profile is an object, hence
    truthy; [None] is [null]. *)
Definition loadProfile (name : string) (item : storage) : option profile :=
  stored_profiles item !! name.

Definition deleteProfile (name : string) (item : storage) : storage :=
  let profiles := stored_profiles item in
  Some (delete name profiles).

(** ** generatePinkNoise (audio-processor.js) *)

(** [ToInt32], applied by [&] and [>>] to their left operand. *)
Definition to_int32 (z : Z) : Z := ((z + 2 ^ 31) mod 2 ^ 32 - 2 ^ 31)%Z.

(** The generator's variables: [rows], [runningSum], and the number of
    calls of [Math.random] made so far. *)
Record pink : Type := mkPink {
  rows : list R;
  runningSum : R;
  random_calls : nat
}.

(** The body of the loop over [row], before [idx >>= 1]; [random k] is
    the value of the [k]-th call of [Math.random].  [rows[row]] is
    always defined there ([row < numRows]). *)
Definition pink_row (random : nat -> R) (idx : Z) (row : nat) (st : pink)
  : pink :=
  if decide (Z.land (to_int32 idx) 1 <> 0)%Z then
    let runningSum1 := runningSum st - default 0 (rows st !! row) in
    let fresh := random (random_calls st) * 2 - 1 in
    {| rows := <[row := fresh]> (rows st);
       runningSum := runningSum1 + fresh;
       random_calls := S (random_calls st) |}
  else st.

(** [for (let row = 0; row < numRows; row++)] at sample [i]. *)
Definition pink_sample (random : nat -> R) (numRows : nat) (i : nat)
    (st : pink) : pink :=
  snd (fold_left
         (fun '(idx, st) row =>
            (Z.shiftr (to_int32 idx) 1, pink_row random idx row st))
         (seq 0 numRows) (Z.of_nat i, st)).

(** The samples written into the buffer; [length] is the number of
    frames of the buffer, [sampleRate * duration]. *)
Definition generatePinkNoise (random : nat -> R) (length : nat) : list R :=
  let numRows := 16%nat in
  snd (fold_left
         (fun '(st, data) i =>
            let st' := pink_sample random numRows i st in
            (st', data ++ [runningSum st' * (1/10)]))
         (seq 0 length)
         ({| rows := replicate numRows 0; runningSum := 0;
             random_calls := 0 |}, [])).

(** What the generator keeps: [n] rows, each in [-1, 1], whose sum is
    [runningSum]. *)
Definition pink_invariant (n : nat) (st : pink) : Prop :=
  length (rows st) = n
  /\ (forall r, r ∈ rows st -> -1 <= r <= 1)
  /\ runningSum st = sum_list (rows st).

(** ** The earlier variant of the class (calibration.js, lines 1-303)

    Its [averageMeasurements] (lines 200-221) has no noise-floor gate:
    every snapshot contributes at every bin, and a snapshot shorter than
    the first one contributes [undefined], which turns the bin into NaN.

    Its [calculateCorrections] (lines 170-198) does not normalize the
    response; the body of its loop takes the measured level relative to
    [referenceLevel] before it is compared with the target, and clamps
    to 12 dB. *)

Module Legacy.

Definition accumulate_power (i : nat) (sum : jsnum) (measurement : list R)
  : jsnum :=
  let linear :=
    jsnum_map (fun v => Math.pow 10 (v / 20)) (to_number (measurement !! i)) in
  jsnum_map2 Rplus sum (jsnum_map2 Rmult linear linear).

Definition average_bin (this : Calibration) (i : nat) : jsnum :=
  let sum :=
    fold_left (accumulate_power i) (measurementData this) (Num 0) in
  let avgLinear :=
    jsnum_map (fun s => Math.sqrt (s / INR (length (measurementData this))))
              sum in
  jsnum_map (fun a => 20 * Math.log10 a) avgLinear.

Definition averageMeasurements (this : Calibration)
  : completion (list jsnum) :=
  match measurementData this with
  | [] => Throw (Error "No measurement data")
  | first :: _ =>
      let length := List.length first in
      Return
        (fold_left (fun averaged i => <[i := average_bin this i]> averaged)
                   (seq 0 length) (replicate length (Num 0)))
  end.

(** [target - (measured - this.referenceLevel)], clamped to [-12, 12]. *)
Definition correction_at (this : Calibration)
    (targetCurve smoothedResponse : list R) (i : nat) : jsnum :=
  let target := to_number (targetCurve !! i) in
  let measured := to_number (smoothedResponse !! i) in
  let correction :=
    jsnum_map2 Rminus target
               (jsnum_map (fun m => m - referenceLevel this) measured) in
  jsnum_map (fun c => Math.max (-12) (Math.min 12 c)) correction.

End Legacy.

(** Two snapshots whose levels are all above the floor, and their
    swap. *)
Definition loud_session : Calibration :=
  set_measurementData (constructor 48000) [[-20; -30]; [-40; -50]].



(** A spectrum of 4096 bins at -20 dB throughout, retained 20 times,
    with a custom curve of 31 entries that a caller has assigned: 40 dB
    below the reference level at 20 Hz, 3 dB below it at 25 Hz, and at
    the reference level from 31.5 Hz on. *)
Definition level_snapshot : list R := replicate 4096 (-20).

Definition stepped_curve : list R := -60 :: -23 :: replicate 29 (-20).

Definition stepped_session : Calibration :=
  assign_custom
    (set_measurementData (constructor 48000) (replicate 20 level_snapshot))
    stepped_curve.

(** * Properties *)

(** ** Loops that write an array by index *)

Lemma fold_update_lookup {A : Type} (g : nat -> option A) (idx : list nat)
    (l : list A) (j : nat) :
  fold_left
    (fun a i => match g i with Some v => <[i := v]> a | None => a end) idx l
  !! j
  = match l !! j with
    | Some x => Some (if decide (j ∈ idx) then default x (g j) else x)
    | None => None
    end.
Proof.
  revert l. induction idx as [|i idx IH]; intros l; simpl.
  - by destruct (l !! j).
  - rewrite IH. destruct (decide (j = i)) as [->|Hne].
    + destruct (g i) as [v|] eqn:Hg.
      * destruct (l !! i) as [x|] eqn:Hl.
        -- rewrite list_lookup_insert_eq by (by eapply lookup_lt_Some).
           simpl. repeat case_decide; set_solver.
        -- by rewrite (proj2 (list_lookup_insert_None l i v i) Hl).
      * destruct (l !! i) as [x|]; [|done]. simpl.
        by repeat case_decide.
    + assert (Hl : (match g i with Some v => <[i := v]> l | None => l end) !! j
                   = l !! j).
      { destruct (g i); [|done]. by rewrite list_lookup_insert_ne. }
      rewrite Hl. destruct (l !! j) as [x|]; [|done].
      f_equal.
      destruct (decide (j ∈ idx)) as [Hin|Hin];
        [ rewrite decide_True by (by apply list_elem_of_further)
        | rewrite decide_False by (by intros [?|?]%elem_of_cons) ];
        done.
Qed.

Lemma fold_update_length {A : Type} (g : nat -> option A) (idx : list nat)
    (l : list A) :
  length
    (fold_left
       (fun a i => match g i with Some v => <[i := v]> a | None => a end) idx l)
  = length l.
Proof.
  revert l. induction idx as [|i idx IH]; intros l; simpl; [done|].
  rewrite IH. destruct (g i); [|done]. by rewrite length_insert.
Qed.

(** ** Decibel and linear scale *)

Lemma ln10_pos : 0 < ln 10.
Proof. rewrite <- ln_1. apply ln_increasing; lra. Qed.

Lemma pow10_pos (x : R) : 0 < Math.pow 10 x.
Proof. unfold Math.pow, Rpower. apply exp_pos. Qed.

Lemma log10_pow10 (x : R) : Math.log10 (Math.pow 10 x) = x.
Proof.
  unfold Math.log10, Math.pow, Rpower. rewrite ln_exp.
  field. pose proof ln10_pos. lra.
Qed.

Lemma log10_increasing (x y : R) :
  0 < x -> x < y -> Math.log10 x < Math.log10 y.
Proof.
  intros Hx Hxy. unfold Math.log10.
  apply Rmult_lt_compat_r.
  - apply Rinv_0_lt_compat, ln10_pos.
  - by apply ln_increasing.
Qed.

Lemma pow10_increasing (x y : R) :
  x < y -> Math.pow 10 x < Math.pow 10 y.
Proof. intros Hxy. unfold Math.pow. apply Rpower_lt; lra. Qed.

(** ** averageMeasurements *)

Lemma contributions_cons (floor : R) (i : nat) (m : list R)
    (data : list (list R)) :
  contributions floor i (m :: data)
  = match m !! i with
    | Some v =>
        if decide (floor < v) then v :: contributions floor i data
        else contributions floor i data
    | None => contributions floor i data
    end.
Proof.
  unfold contributions. cbn [omap list_omap].
  destruct (m !! i) as [v|]; [|done].
  rewrite filter_cons. by case_decide.
Qed.

Lemma accumulate_power_fold (floor : R) (i : nat) (data : list (list R))
    (sum : R) (count : nat) :
  fold_left (accumulate_power floor i) data (sum, count)
  = (sum + sum_list (map (fun v => (Math.pow 10 (v / 20)) ^ 2)
                         (contributions floor i data)),
     (count + length (contributions floor i data))%nat).
Proof.
  revert sum count.
  induction data as [|m data IH]; intros sum count.
  - cbn. f_equal; [lra | lia].
  - rewrite contributions_cons. cbn [fold_left].
    unfold accumulate_power at 2.
    destruct (m !! i) as [v|]; [|apply IH].
    case_decide; [|apply IH].
    rewrite IH. unfold sum_list. cbn [map foldr length].
    f_equal; [ring | lia].
Qed.

Lemma average_bin_spec (this : Calibration) (i : nat) :
  average_bin this i
  = spec_average_bin (noiseFloor this) i (measurementData this).
Proof.
  unfold average_bin, spec_average_bin, power_mean_dB.
  rewrite accumulate_power_fold. simpl.
  rewrite Rplus_0_l.
  repeat case_decide; try lia; done.
Qed.

Lemma averageMeasurements_bins (this : Calibration) (first : list R)
    (rest : list (list R)) :
  measurementData this = first :: rest ->
  exists averaged,
    averageMeasurements this = Return averaged
    /\ length averaged = length first
    /\ forall i, (i < length first)%nat ->
         averaged !! i = Some (average_bin this i).
Proof.
  intros Hd. unfold averageMeasurements. rewrite Hd.
  eexists. split; [reflexivity|]. split.
  - rewrite (fold_update_length (fun i => Some (average_bin this i))).
    by rewrite length_replicate.
  - intros i Hi.
    rewrite (fold_update_lookup (fun i => Some (average_bin this i))).
    rewrite lookup_replicate_2 by done.
    rewrite decide_True; [done|].
    apply elem_of_seq. lia.
Qed.

(** C1: for a non-empty measurement list, every bin [i] of the spectrum
    returned by [averageMeasurements] is [20*log10(sqrt(S/c))], with [S]
    the sum of [(10^(v/20))^2] over exactly the snapshot values [v] at
    bin [i] strictly above the noise floor and [c] their number; when
    [c = 0] the bin is the noise floor itself. *)
Theorem averageMeasurements_power_mean (this : Calibration)
    (first : list R) (rest : list (list R)) :
  measurementData this = first :: rest ->
  exists averaged,
    averageMeasurements this = Return averaged
    /\ length averaged = length first
    /\ forall i, (i < length first)%nat ->
         let vs := contributions (noiseFloor this) i (first :: rest) in
         let S := sum_list (map (fun v => (Math.pow 10 (v / 20)) ^ 2) vs) in
         let c := length vs in
         averaged !! i
         = Some (if decide (c = 0%nat) then noiseFloor this
                 else 20 * Math.log10 (Math.sqrt (S / INR c))).
Proof.
  intros Hd.
  destruct (averageMeasurements_bins this first rest Hd)
    as (averaged & Hret & Hlen & Hbins).
  exists averaged. split; [done|]. split; [done|].
  intros i Hi. simpl. rewrite (Hbins i Hi), average_bin_spec, Hd.
  reflexivity.
Qed.

Lemma log10_le (x y : R) : 0 < x -> x <= y -> Math.log10 x <= Math.log10 y.
Proof.
  intros Hx [Hlt | ->]; [|lra].
  left. by apply log10_increasing.
Qed.

Lemma sqrt_square_pos (p : R) : 0 < p -> Math.sqrt (p ^ 2) = p.
Proof.
  intros Hp. unfold Math.sqrt.
  replace (p ^ 2) with (p * p) by ring.
  apply sqrt_square. lra.
Qed.

Lemma contributions_above (floor : R) (i : nat) (data : list (list R))
    (v : R) :
  v ∈ contributions floor i data -> floor < v.
Proof. unfold contributions. intros Hv. by apply list_elem_of_filter in Hv as [? _]. Qed.

Lemma contributions_equal (floor : R) (i : nat) (data : list (list R))
    (L : R) :
  (forall m, m ∈ data -> m !! i = Some L) ->
  floor < L ->
  contributions floor i data = replicate (length data) L.
Proof.
  intros Hall HL. induction data as [|m data IH]; [done|].
  rewrite contributions_cons, (Hall m) by set_solver.
  rewrite decide_True by done. cbn [length replicate].
  f_equal. apply IH. intros m' Hm'. apply Hall. set_solver.
Qed.

Lemma sum_list_replicate (f : R -> R) (n : nat) (L : R) :
  sum_list (map f (replicate n L)) = INR n * f L.
Proof.
  induction n as [|n IH].
  - cbn. lra.
  - rewrite S_INR. unfold sum_list in *. cbn [replicate map foldr].
    rewrite IH. ring.
Qed.

(** The sum of the powers of values above the floor is at least as many
    times the power of the floor. *)
Lemma sum_list_power_floor (floor : R) (vs : list R) :
  (forall v, v ∈ vs -> floor < v) ->
  INR (length vs) * (Math.pow 10 (floor / 20)) ^ 2
  <= sum_list (map (fun v => (Math.pow 10 (v / 20)) ^ 2) vs).
Proof.
  induction vs as [|v vs IH]; intros Hall.
  - cbn. lra.
  - unfold sum_list in *. cbn [length map foldr]. rewrite S_INR.
    assert (Hv : floor < v) by (apply Hall; set_solver).
    assert (Hp : Math.pow 10 (floor / 20) < Math.pow 10 (v / 20))
      by (apply pow10_increasing; lra).
    pose proof (pow10_pos (floor / 20)) as H0.
    assert (Hsq : Math.pow 10 (floor / 20) ^ 2 <= Math.pow 10 (v / 20) ^ 2)
      by nra.
    assert (Hrest := IH (fun w Hw => Hall w (list_elem_of_further _ _ _ Hw))).
    lra.
Qed.

Lemma power_mean_dB_floor (floor : R) (vs : list R) :
  (forall v, v ∈ vs -> floor < v) ->
  vs <> [] ->
  floor <= power_mean_dB vs.
Proof.
  intros Hall Hne. unfold power_mean_dB.
  set (S := sum_list _). set (c := INR (length vs)).
  set (p0 := Math.pow 10 (floor / 20)).
  assert (Hc : 0 < c).
  { subst c. apply lt_0_INR. destruct vs; [done|cbn; lia]. }
  assert (Hp0 : 0 < p0) by apply pow10_pos.
  assert (HS : c * p0 ^ 2 <= S) by (by apply sum_list_power_floor).
  assert (Hq : p0 ^ 2 <= S / c).
  { apply Rmult_le_reg_r with c; [done|].
    replace (S / c * c) with S by (field; lra). lra. }
  assert (Hs : p0 <= Math.sqrt (S / c)).
  { rewrite <- (sqrt_square_pos p0 Hp0). unfold Math.sqrt.
    by apply sqrt_le_1_alt. }
  replace floor with (20 * Math.log10 p0)
    by (subst p0; rewrite log10_pow10; lra).
  apply Rmult_le_compat_l; [lra|].
  by apply log10_le.
Qed.

(** C9: for a non-empty measurement list, every bin of the spectrum
    returned by [averageMeasurements] is at least the noise floor. *)
Theorem averageMeasurements_above_floor (this : Calibration)
    (first : list R) (rest : list (list R)) :
  measurementData this = first :: rest ->
  exists averaged,
    averageMeasurements this = Return averaged
    /\ forall i v, averaged !! i = Some v -> noiseFloor this <= v.
Proof.
  intros Hd.
  destruct (averageMeasurements_bins this first rest Hd)
    as (averaged & Hret & Hlen & Hbins).
  exists averaged. split; [done|].
  intros i v Hv.
  assert (Hi : (i < length first)%nat).
  { rewrite <- Hlen. by eapply lookup_lt_Some. }
  rewrite (Hbins i Hi), average_bin_spec in Hv.
  injection Hv as <-. unfold spec_average_bin.
  case_decide as Hc; [lra|].
  apply power_mean_dB_floor.
  - intros w. apply contributions_above.
  - intros Hnil. by rewrite Hnil in Hc.
Qed.

(** ** collectMeasurements *)

Lemma max_of_fold (xs : list R) (m : R) :
  fold_left
    (fun acc x => Some (match acc with Some m => Rmax m x | None => x end))
    xs (Some m)
  = Some (fold_left Rmax xs m).
Proof. revert m. induction xs as [|x xs IH]; intros m; [done|apply IH]. Qed.

Lemma fold_Rmax_upper (xs : list R) (m : R) :
  m <= fold_left Rmax xs m /\ forall x, x ∈ xs -> x <= fold_left Rmax xs m.
Proof.
  revert m. induction xs as [|y xs IH]; intros m; cbn [fold_left].
  - split; [lra | intros x Hx; by apply not_elem_of_nil in Hx].
  - destruct (IH (Rmax m y)) as [H1 H2].
    pose proof (Rmax_l m y). pose proof (Rmax_r m y).
    split; [lra|]. intros x Hx.
    apply elem_of_cons in Hx as [->|Hx]; [lra | by apply H2].
Qed.

Lemma fold_Rmax_elem (xs : list R) (m : R) :
  fold_left Rmax xs m ∈ m :: xs.
Proof.
  revert m. induction xs as [|y xs IH]; intros m; cbn [fold_left].
  - set_solver.
  - specialize (IH (Rmax m y)).
    apply elem_of_cons in IH as [Heq | Hin]; [|set_solver].
    rewrite Heq. unfold Rmax. destruct (Rle_dec m y); set_solver.
Qed.

Lemma max_of_cons (x : R) (xs : list R) :
  Math.max_of (x :: xs) = Some (fold_left Rmax xs x).
Proof. unfold Math.max_of. cbn [fold_left]. apply max_of_fold. Qed.

(** [peak_above] says that the largest element is above the floor. *)
Lemma peak_above_spec (floor : R) (frame : list R) :
  peak_above floor frame
  <-> exists m, m ∈ frame /\ (forall x, x ∈ frame -> x <= m) /\ floor < m.
Proof.
  unfold peak_above. destruct frame as [|x xs].
  - cbn. split; [done|]. intros (m & Hm & _). by apply not_elem_of_nil in Hm.
  - rewrite max_of_cons.
    destruct (fold_Rmax_upper xs x) as [Hx Hxs].
    pose proof (fold_Rmax_elem xs x) as Hin.
    assert (Hub : forall y, y ∈ x :: xs -> y <= fold_left Rmax xs x).
    { intros y Hy. apply elem_of_cons in Hy as [->|Hy]; [done|by apply Hxs]. }
    split.
    + intros Hfl. by exists (fold_left Rmax xs x).
    + intros (m & Hm & Hmax & Hfl).
      specialize (Hub _ Hm). lra.
Qed.

Lemma measure_discard (d : nat) (c : Calibration) (frame : list R) :
  measure {| discardCount := S d; collector := c |} frame
  = {| discardCount := d; collector := c |}.
Proof.
  unfold measure. cbn [discardCount collector].
  rewrite decide_True by lia. f_equal. lia.
Qed.

Lemma measure_keep (c : Calibration) (frame : list R) :
  peak_above (noiseFloor c) frame ->
  measure {| discardCount := 0; collector := c |} frame
  = {| discardCount := 0;
       collector := set_measurementData c (measurementData c ++ [frame]) |}.
Proof.
  unfold measure, peak_above. cbn [discardCount collector]. intros Hp.
  rewrite decide_False by lia.
  destruct (Math.max_of frame); [|done]. by rewrite decide_True.
Qed.

Lemma measure_drop (c : Calibration) (frame : list R) :
  ~ peak_above (noiseFloor c) frame ->
  measure {| discardCount := 0; collector := c |} frame
  = {| discardCount := 0; collector := c |}.
Proof.
  unfold measure, peak_above. cbn [discardCount collector]. intros Hp.
  rewrite decide_False by lia.
  destruct (Math.max_of frame); [|done]. by rewrite decide_False.
Qed.

Lemma measure_fold (d : nat) (c : Calibration) (frames : list (list R)) :
  let st := fold_left measure frames {| discardCount := d; collector := c |} in
  measurementData (collector st)
  = measurementData c ++ filter (peak_above (noiseFloor c)) (drop d frames)
  /\ noiseFloor (collector st) = noiseFloor c
  /\ referenceLevel (collector st) = referenceLevel c
  /\ targetCurves (collector st) = targetCurves c
  /\ sampleRate (collector st) = sampleRate c.
Proof.
  revert d c. induction frames as [|frame frames IH]; intros d c st.
  - subst st. cbn. rewrite drop_nil. cbn. by rewrite app_nil_r.
  - subst st. cbn [fold_left]. destruct d as [|d].
    + rewrite drop_0, filter_cons.
      destruct (decide (peak_above (noiseFloor c) frame)) as [Hp|Hp].
      * rewrite measure_keep by done.
        destruct (IH 0%nat (set_measurementData c
                              (measurementData c ++ [frame])))
          as (H1 & H2 & H3 & H4 & H5).
        rewrite drop_0 in H1. cbn in H1, H2, H3, H4, H5.
        rewrite H1, <- app_assoc. done.
      * rewrite measure_drop by done.
        specialize (IH 0%nat c). by rewrite drop_0 in IH.
    + rewrite measure_discard. apply IH.
Qed.

Lemma collect_session (this : Calibration) (frames : list (list R)) :
  measurementData (collectMeasurements (set_measurementData this []) frames)
  = filter (peak_above (noiseFloor this)) (drop 10 frames)
  /\ noiseFloor (collectMeasurements (set_measurementData this []) frames)
     = noiseFloor this.
Proof.
  unfold collectMeasurements.
  destruct (measure_fold 10 (set_measurementData this []) frames)
    as (-> & -> & _). done.
Qed.

(** C4: over one session the retained snapshots are exactly the
    submissions that are not among the first 10 and whose maximum is
    strictly above the noise floor, in order of arrival; every other
    submission is dropped, the collection itself never fails. *)
Theorem collectMeasurements_retained (this : Calibration)
    (frames : list (list R)) :
  measurementData (measureWithMusic this frames)
  = filter (peak_above (noiseFloor this)) (drop 10 frames)
  /\ measurementData (measureWithTestSignal this frames)
     = filter (peak_above (noiseFloor this)) (drop 10 frames)
  /\ forall frame,
       peak_above (noiseFloor this) frame
       <-> exists m, m ∈ frame /\ (forall x, x ∈ frame -> x <= m)
                     /\ noiseFloor this < m.
Proof.
  destruct (collect_session this frames) as [H _].
  split; [exact H|]. split; [exact H|].
  intros frame. apply peak_above_spec.
Qed.

(** ** extractFrequencyResponse *)

Section BinLoop.

Variable floor : R.
Variable fftData : list R.



(** The loop stops by its own guard: fuel beyond [endBin - bin + 1]
    changes nothing. *)
Lemma scan_bins_enough_fuel (extra fuel : nat) (bin endBin : Z) (st : scan) :
  (endBin - bin + 1 <= Z.of_nat fuel)%Z ->
  scan_bins (fuel + extra) floor fftData bin endBin st
  = scan_bins fuel floor fftData bin endBin st.
Proof.
  revert bin st. induction fuel as [|fuel IH]; intros bin st Hf.
  - cbn [Nat.add scan_bins]. destruct extra as [|extra]; [done|].
    cbn [scan_bins]. rewrite decide_False by lia. done.
  - cbn [Nat.add scan_bins]. repeat case_decide; try done.
    apply IH. lia.
Qed.

(** The fuel that [extract_band] passes is enough. *)
Lemma scan_bins_window_fuel (extra : nat) (startBin endBin : Z) (st : scan) :
  scan_bins (Z.to_nat (endBin - startBin + 1) + extra) floor fftData
            startBin endBin st
  = scan_bins (Z.to_nat (endBin - startBin + 1)) floor fftData
              startBin endBin st.
Proof. apply scan_bins_enough_fuel. lia. Qed.



Lemma scan_bins_step (fuel : nat) (bin endBin : Z) (st : scan) :
  (bin <= endBin)%Z -> (bin < Z.of_nat (length fftData))%Z ->
  scan_bins (S fuel) floor fftData bin endBin st
  = scan_bins fuel floor fftData (bin + 1) endBin
              (scan_bin floor fftData bin st).
Proof. intros H1 H2. cbn [scan_bins]. by rewrite !decide_True. Qed.

Lemma scan_bins_stop (fuel : nat) (bin endBin : Z) (st : scan) :
  (endBin < bin \/ Z.of_nat (length fftData) <= bin)%Z ->
  scan_bins fuel floor fftData bin endBin st = st.
Proof.
  intros H. destruct fuel as [|fuel]; [done|]. cbn [scan_bins].
  repeat case_decide; first [done | lia].
Qed.

Lemma scan_bin_above (bin : Z) (st : scan) (v : R) :
  (0 <= bin)%Z -> fftData !! Z.to_nat bin = Some v -> floor < v ->
  scan_bin floor fftData bin st
  = {| scan_sum := scan_sum st + v;
       scan_count := S (scan_count st);
       scan_reads := bin :: scan_reads st |}.
Proof.
  intros Hb Hv Hfl. unfold scan_bin.
  by rewrite decide_True, Hv, decide_True.
Qed.

Lemma scan_bin_below (bin : Z) (st : scan) (v : R) :
  (0 <= bin)%Z -> fftData !! Z.to_nat bin = Some v -> ~ floor < v ->
  scan_bin floor fftData bin st
  = {| scan_sum := scan_sum st;
       scan_count := scan_count st;
       scan_reads := bin :: scan_reads st |}.
Proof.
  intros Hb Hv Hfl. unfold scan_bin.
  by rewrite decide_True, Hv, decide_False.
Qed.

Lemma scan_bin_negative (bin : Z) (st : scan) :
  (bin < 0)%Z -> scan_bin floor fftData bin st = st.
Proof. intros Hb. unfold scan_bin. by rewrite decide_False by lia. Qed.

End BinLoop.

Lemma extract_logged_fold (this : Calibration) (fftData tf : list R)
    (response : list R) (reads : list Z) :
  fold_left
    (fun '(response, reads) freq =>
       let '(v, r) :=
         extract_band (noiseFloor this) (binWidth_of this fftData) fftData freq
       in (response ++ [v], reads ++ r))
    tf (response, reads)
  = (response
       ++ map (fun freq =>
                 fst (extract_band (noiseFloor this) (binWidth_of this fftData)
                                   fftData freq)) tf,
     reads
       ++ concat (map (fun freq =>
                 snd (extract_band (noiseFloor this) (binWidth_of this fftData)
                                   fftData freq)) tf)).
Proof.
  revert response reads. induction tf as [|freq tf IH]; intros response reads.
  - cbn. by rewrite !app_nil_r.
  - cbn [fold_left map concat].
    destruct (extract_band _ _ _ freq) as [v r] eqn:Hb.
    rewrite IH. cbn [fst snd]. by rewrite <- !app_assoc.
Qed.

Lemma extractFrequencyResponse_map (this : Calibration)
    (fftData tf : list R) :
  extractFrequencyResponse this fftData tf
  = map (fun freq =>
           fst (extract_band (noiseFloor this) (binWidth_of this fftData)
                             fftData freq)) tf.
Proof.
  unfold extractFrequencyResponse, extractFrequencyResponse_logged.
  by rewrite extract_logged_fold.
Qed.




(** ** applySmoothing *)

Lemma accumulate_window_fold (floor lower upper : R) (data : list R)
    (bands : list (nat * R)) (sum : R) (count : nat) :
  fold_left (accumulate_window floor lower upper data) bands (sum, count)
  = (sum + sum_list (window_values_of floor lower upper data bands),
     (count + length (window_values_of floor lower upper data bands))%nat).
Proof.
  revert sum count. unfold window_values_of, sum_list.
  induction bands as [|[j fj] bands IH]; intros sum count.
  - cbn. f_equal; [lra | lia].
  - cbn [fold_left omap list_omap fst snd].
    unfold accumulate_window at 2.
    destruct (decide (lower <= fj)) as [Hlo|Hlo].
    + destruct (decide (fj <= upper)) as [Hup|Hup].
      * rewrite decide_True by done.
        destruct (data !! j) as [v|].
        -- destruct (decide (floor < v)).
           ++ rewrite IH. cbn [foldr length]. f_equal; [lra | lia].
           ++ apply IH.
        -- apply IH.
      * rewrite decide_False by tauto. apply IH.
    + rewrite decide_False by tauto. apply IH.
Qed.

Lemma smooth_band_spec (floor q : R) (data : list R) (i : nat) (f : R) :
  frequencies !! i = Some f ->
  smooth_band floor q data i
  = let vs := window_values floor (window_lower q f) (window_upper q f) data in
    if decide (vs = []) then None else Some (mean vs).
Proof.
  intros Hf.
  unfold smooth_band, getFrequencies, window_values, window_lower, window_upper.
  rewrite Hf, accumulate_window_fold. cbv beta iota zeta.
  generalize (window_values_of floor (f * Math.pow 2 (- q / 2))
                (f * Math.pow 2 (q / 2)) data (imap pair frequencies)).
  intros vs. rewrite Rplus_0_l, Nat.add_0_l. unfold mean.
  destruct vs as [|v vs].
  - rewrite decide_False by (cbn [length]; lia). by rewrite decide_True.
  - rewrite decide_True by (cbn [length]; lia). by rewrite decide_False.
Qed.

Lemma applySmoothing_lookup (this : Calibration) (data : list R)
    (smoothingType : string) (i : nat) :
  applySmoothing this data smoothingType !! i
  = smoothed_over (window_lower (octaveFraction_of smoothingType))
                  (window_upper (octaveFraction_of smoothingType))
                  (noiseFloor this) data i
    ∪ data !! i.
Proof.
  unfold applySmoothing, smoothed_over.
  rewrite (fold_update_lookup
             (smooth_band (noiseFloor this) (octaveFraction_of smoothingType)
                          data)).
  destruct (data !! i) as [x|] eqn:Hx.
  - rewrite decide_True
      by (apply elem_of_seq; apply lookup_lt_Some in Hx; lia).
    destruct (frequencies !! i) as [f|] eqn:Hf.
    + rewrite (smooth_band_spec _ _ _ _ f Hf). cbv zeta.
      by case_decide.
    + unfold smooth_band, getFrequencies. by rewrite Hf.
  - by destruct (frequencies !! i).
Qed.

Lemma applySmoothing_length (this : Calibration) (data : list R)
    (smoothingType : string) :
  length (applySmoothing this data smoothingType) = length data.
Proof. unfold applySmoothing. apply fold_update_length. Qed.

Lemma octaveFraction_of_third : octaveFraction_of "1/3" = 1/3.
Proof. unfold octaveFraction_of, octaveFractions. by rewrite lookup_insert_eq. Qed.

Lemma octaveFraction_of_sixth : octaveFraction_of "1/6" = 1/6.
Proof.
  unfold octaveFraction_of, octaveFractions.
  rewrite lookup_insert_ne by done. by rewrite lookup_insert_eq.
Qed.

Lemma octaveFraction_of_twelfth : octaveFraction_of "1/12" = 1/12.
Proof.
  unfold octaveFraction_of, octaveFractions.
  do 2 rewrite lookup_insert_ne by done. by rewrite lookup_insert_eq.
Qed.

(** C5, amended: for each of the three smoothing fractions [q], band [i]
    of [applySmoothing] is the arithmetic mean of exactly the input
    values strictly above the noise floor at the bands whose center
    frequency lies in [[f*2^(-q/2), f*2^(q/2)]], and the input value of
    band [i] when there is no such value. *)
Theorem applySmoothing_window_mean (this : Calibration) (data : list R)
    (smoothingType : string) (q : R) (i : nat) (f x : R) :
  (smoothingType, q) ∈ [("1/3"%string, 1/3); ("1/6"%string, 1/6);
                        ("1/12"%string, 1/12)] ->
  frequencies !! i = Some f ->
  data !! i = Some x ->
  applySmoothing this data smoothingType !! i
  = Some (let vs := window_values (noiseFloor this)
                      (f * Math.pow 2 (- q / 2)) (f * Math.pow 2 (q / 2)) data in
          if decide (vs = []) then x else mean vs).
Proof.
  intros Hq Hf Hx.
  assert (Hfrac : octaveFraction_of smoothingType = q).
  { repeat (apply elem_of_cons in Hq as [Hq|Hq];
            [injection Hq as -> ->;
             first [apply octaveFraction_of_third
                   | apply octaveFraction_of_sixth
                   | apply octaveFraction_of_twelfth] |]).
    by apply not_elem_of_nil in Hq. }
  rewrite applySmoothing_lookup, Hfrac.
  unfold smoothed_over. rewrite Hf, Hx. reflexivity.
Qed.

(** Bounds on the third-octave window factors [2^(1/6)] and [2^(-1/6)]. *)
Lemma pow2_sixth_bounds : 1 < Math.pow 2 (1 / 3 / 2) < 5 / 4.
Proof.
  unfold Math.pow. split.
  - assert (H : Rpower 2 0 < Rpower 2 (1 / 3 / 2)) by (apply Rpower_lt; lra).
    by rewrite Rpower_O in H by lra.
  - set (r := Rpower 2 (1 / 3 / 2)).
    assert (Hr : 0 < r) by apply exp_pos.
    assert (H6 : r ^ 6 = 2).
    { rewrite <- Rpower_pow by done. subst r. rewrite Rpower_mult.
      replace (1 / 3 / 2 * INR 6) with 1 by (cbn; field).
      apply Rpower_1. lra. }
    destruct (Rlt_dec r (5 / 4)) as [|Hge]; [done|].
    assert (Hle : (5 / 4) ^ 6 <= r ^ 6) by (apply pow_incr; lra).
    lra.
Qed.

Lemma pow2_neg_sixth_bound : Math.pow 2 (- (1 / 3) / 2) < 1.
Proof.
  unfold Math.pow.
  assert (H : Rpower 2 (- (1 / 3) / 2) < Rpower 2 0) by (apply Rpower_lt; lra).
  by rewrite Rpower_O in H by lra.
Qed.

Lemma window_values_of_nil (floor lower upper : R) (data : list R) :
  window_values_of floor lower upper data [] = [].
Proof. reflexivity. Qed.

Lemma window_values_of_in (floor lower upper : R) (data : list R)
    (j : nat) (fj v : R) (bands : list (nat * R)) :
  lower <= fj <= upper -> data !! j = Some v -> floor < v ->
  window_values_of floor lower upper data ((j, fj) :: bands)
  = v :: window_values_of floor lower upper data bands.
Proof.
  intros Hw Hv Hfl. unfold window_values_of.
  cbn [omap list_omap fst snd].
  rewrite decide_True by done. rewrite Hv. by rewrite decide_True.
Qed.

Lemma window_values_of_out (floor lower upper : R) (data : list R)
    (j : nat) (fj : R) (bands : list (nat * R)) :
  ~ (lower <= fj <= upper) ->
  window_values_of floor lower upper data ((j, fj) :: bands)
  = window_values_of floor lower upper data bands.
Proof.
  intros Hw. unfold window_values_of.
  cbn [omap list_omap fst snd]. by rewrite decide_False.
Qed.

Lemma frequencies_indexed :
  imap pair frequencies
  = [(0%nat, 20); (1%nat, 25); (2%nat, 63/2); (3%nat, 40); (4%nat, 50);
     (5%nat, 63); (6%nat, 80); (7%nat, 100); (8%nat, 125); (9%nat, 160);
     (10%nat, 200); (11%nat, 250); (12%nat, 315); (13%nat, 400);
     (14%nat, 500); (15%nat, 630); (16%nat, 800); (17%nat, 1000);
     (18%nat, 1250); (19%nat, 1600); (20%nat, 2000); (21%nat, 2500);
     (22%nat, 3150); (23%nat, 4000); (24%nat, 5000); (25%nat, 6300);
     (26%nat, 8000); (27%nat, 10000); (28%nat, 12500); (29%nat, 16000);
     (30%nat, 20000)].
Proof. reflexivity. Qed.

Ltac step_band :=
  first [ rewrite window_values_of_out by lra
        | erewrite window_values_of_in by (first [reflexivity | lra]) ].

Lemma window_values_bump_third (lower upper : R) :
  lower <= 20 -> 20 <= upper < 25 ->
  window_values (-80) lower upper bump_response = [0].
Proof.
  intros Hlo Hup. unfold window_values. rewrite frequencies_indexed.
  repeat step_band. reflexivity.
Qed.

Lemma window_values_bump_octave (lower upper : R) :
  lower <= 20 -> 40 <= upper < 50 ->
  window_values (-80) lower upper bump_response = [0; 3; 0; 0].
Proof.
  intros Hlo Hup. unfold window_values. rewrite frequencies_indexed.
  repeat step_band. reflexivity.
Qed.

Lemma mean_singleton (v : R) : mean [v] = v.
Proof. unfold mean, sum_list. cbn [foldr length INR]. lra. Qed.

(** C5 as stated fails: with the upper end [f*2*2^(q/2)] the 3 dB bump at
    25 Hz would enter the window of the 20 Hz band and raise it to
    0.75 dB, whereas [applySmoothing] leaves the 20 Hz band at 0 dB. *)
Lemma applySmoothing_octave_window_counterexample :
  length bump_response = 31%nat
  /\ applySmoothing (constructor 48000) bump_response "1/3" !! 0%nat = Some 0
  /\ smoothed_over (window_lower (1/3)) (window_upper_octave (1/3))
                   (noiseFloor (constructor 48000)) bump_response 0
     = Some (3/4)
  /\ 0 <> 3/4.
Proof.
  pose proof pow2_sixth_bounds as [Hlo Hhi].
  pose proof pow2_neg_sixth_bound as Hneg.
  change (noiseFloor (constructor 48000)) with (-80).
  split; [reflexivity|]. split; [|split; [|lra]].
  - rewrite applySmoothing_lookup, octaveFraction_of_third.
    change (noiseFloor (constructor 48000)) with (-80).
    unfold smoothed_over.
    change (frequencies !! 0%nat) with (Some 20).
    change (bump_response !! 0%nat) with (Some 0). cbv beta iota zeta.
    rewrite window_values_bump_third
      by (unfold window_lower, window_upper; lra).
    rewrite decide_False by done. by rewrite mean_singleton.
  - unfold smoothed_over.
    change (frequencies !! 0%nat) with (Some 20).
    change (bump_response !! 0%nat) with (Some 0). cbv beta iota zeta.
    rewrite window_values_bump_octave
      by (unfold window_lower, window_upper_octave; lra).
    rewrite decide_False by done. f_equal.
    unfold mean, sum_list. cbn [foldr length INR]. lra.
Qed.

(** ** Quantization and clamping *)

Lemma quantize_half_integer (x : R) : exists k : Z, quantize x = IZR k * (1/2).
Proof.
  exists (Zfloor (x * 2 + / 2)). unfold quantize, Math.round. lra.
Qed.

Lemma quantize_range (x : R) : -10 <= x <= 10 -> -10 <= quantize x <= 10.
Proof.
  intros Hx. unfold quantize, Math.round.
  pose proof (Zfloor_bound (x * 2 + / 2)) as [Hlow Hup].
  assert (Hge : (-20 <= Zfloor (x * 2 + / 2))%Z) by (apply Zfloor_lub; lra).
  assert (Hle : (Zfloor (x * 2 + / 2) < 21)%Z) by (apply lt_IZR; lra).
  apply IZR_le in Hge. assert (Hle' : (Zfloor (x * 2 + / 2) <= 20)%Z) by lia.
  apply IZR_le in Hle'. lra.
Qed.

Lemma quantize_ten : quantize 10 = 10.
Proof.
  unfold quantize, Math.round.
  rewrite (Zfloor_eq 20) by lra. lra.
Qed.

Lemma clamp_range (c : R) : -10 <= Math.max (-10) (Math.min 10 c) <= 10.
Proof.
  unfold Math.max, Math.min, Rmax, Rmin.
  repeat destruct (Rle_dec _ _); lra.
Qed.

Lemma clamp_high (c : R) : 10 <= c -> Math.max (-10) (Math.min 10 c) = 10.
Proof.
  intros Hc. unfold Math.max, Math.min, Rmax, Rmin.
  repeat destruct (Rle_dec _ _); lra.
Qed.

Lemma correction_at_valid (curve normalized : list R) (i : nat) (t m : R) :
  curve !! i = Some t -> normalized !! i = Some m ->
  valid_correction (correction_at curve normalized i).
Proof.
  intros Ht Hm. unfold correction_at. rewrite Ht, Hm. cbn.
  eexists. split; [reflexivity|]. split.
  - apply quantize_range, clamp_range.
  - apply quantize_half_integer.
Qed.

(** ** smoothCorrections *)

Lemma smoothCorrections_lookup (corrections : list jsnum) (j : nat) :
  smoothCorrections corrections !! j
  = match corrections !! j with
    | Some c =>
        Some (if decide (j ∈ seq 1 (length corrections - 2))
              then smooth_at corrections j else c)
    | None => None
    end.
Proof.
  unfold smoothCorrections.
  by rewrite (fold_update_lookup (fun i => Some (smooth_at corrections i))).
Qed.

Lemma smoothCorrections_length (corrections : list jsnum) :
  length (smoothCorrections corrections) = length corrections.
Proof.
  unfold smoothCorrections.
  apply (fold_update_length (fun i => Some (smooth_at corrections i))).
Qed.

Lemma smooth_at_valid (corrections : list jsnum) (j : nat) :
  (forall c, c ∈ corrections -> valid_correction c) ->
  j ∈ seq 1 (length corrections - 2) ->
  valid_correction (smooth_at corrections j).
Proof.
  intros Hall Hj. apply elem_of_seq in Hj.
  assert (Hget : forall k, (k < length corrections)%nat ->
                   exists v, corrections !! k = Some (Num v) /\ -10 <= v <= 10).
  { intros k Hk. destruct (lookup_lt_is_Some_2 corrections k Hk) as [c Hc].
    destruct (Hall c) as (v & -> & Hv & _);
      [by eapply list_elem_of_lookup_2|]. by exists v. }
  destruct (Hget (j - 1)%nat) as (a & Ha & Hra); [lia|].
  destruct (Hget j) as (b & Hb & Hrb); [lia|].
  destruct (Hget (j + 1)%nat) as (c & Hc & Hrc); [lia|].
  unfold smooth_at. rewrite Ha, Hb, Hc. cbn.
  eexists. split; [reflexivity|]. split.
  - apply quantize_range. lra.
  - apply quantize_half_integer.
Qed.

Lemma smoothCorrections_valid (corrections : list jsnum) :
  (forall c, c ∈ corrections -> valid_correction c) ->
  forall c, c ∈ smoothCorrections corrections -> valid_correction c.
Proof.
  intros Hall c Hc. apply list_elem_of_lookup in Hc as [j Hj].
  rewrite smoothCorrections_lookup in Hj.
  destruct (corrections !! j) as [c0|] eqn:Hc0; [|done].
  injection Hj as <-. case_decide.
  - by apply smooth_at_valid.
  - apply Hall. by eapply list_elem_of_lookup_2.
Qed.

(** ** calculateCorrections *)

Lemma correction_loop_fold (curve normalized : list R) (idx : list nat)
    (acc : list jsnum) :
  fold_left
    (fun acc i =>
       corrections ← acc;
       match Some curve with
       | Some curve =>
           Return (corrections ++ [correction_at curve normalized i])
       | None => Throw TypeError
       end)
    idx (Return acc)
  = Return (acc ++ map (correction_at curve normalized) idx).
Proof.
  revert acc. induction idx as [|i idx IH]; intros acc.
  - cbn. by rewrite app_nil_r.
  - cbn [fold_left map]. unfold mbind at 2, completion_bind.
    rewrite IH. by rewrite <- app_assoc.
Qed.

Lemma correction_loop_some (curve normalized : list R) (n : nat) :
  correction_loop (Some curve) normalized n
  = Return (map (correction_at curve normalized) (seq 0 n)).
Proof. unfold correction_loop. by rewrite correction_loop_fold. Qed.

Lemma correction_loop_throw (normalized : list R) (idx : list nat) (e : exn) :
  fold_left
    (fun acc i =>
       corrections ← acc;
       match @None (list R) with
       | Some curve =>
           Return (corrections ++ [correction_at curve normalized i])
       | None => Throw TypeError
       end)
    idx (Throw e)
  = Throw e.
Proof. induction idx as [|i idx IH]; [done|]. cbn [fold_left]. apply IH. Qed.

Lemma correction_loop_none (normalized : list R) (n : nat) :
  correction_loop None normalized (S n) = Throw TypeError.
Proof.
  unfold correction_loop. cbn [seq fold_left].
  change (Return [] ≫= fun _ : list jsnum => Throw TypeError)
    with (@Throw (list jsnum) TypeError).
  apply (correction_loop_throw normalized).
Qed.

Lemma max_of_upper (xs : list R) (x : R) :
  x ∈ xs -> exists m, Math.max_of xs = Some m /\ forall y, y ∈ xs -> y <= m.
Proof.
  intros Hx. destruct xs as [|x0 xs]; [by apply not_elem_of_nil in Hx|].
  exists (fold_left Rmax xs x0). split; [apply max_of_cons|].
  destruct (fold_Rmax_upper xs x0) as [H0 Hxs].
  intros y Hy. apply elem_of_cons in Hy as [->|Hy]; [done|by apply Hxs].
Qed.

Lemma length_frequencies : length frequencies = 31%nat.
Proof. reflexivity. Qed.

(** A run on retained data: the pipeline up to the normalized response
    cannot fail, the normalized response has one entry per band, none
    above the reference level, and the result is the neighbour-smoothed
    correction loop. *)
Lemma calculateCorrections_run (this : Calibration)
    (targetCurveName smoothing : string) (first : list R)
    (rest : list (list R)) :
  measurementData this = first :: rest ->
  exists normalized,
    length normalized = 31%nat
    /\ (forall v, v ∈ normalized -> v <= referenceLevel this)
    /\ calculateCorrections this targetCurveName smoothing
       = (corrections ←
            correction_loop (targetCurves this !! targetCurveName)
                            normalized 31;
          Return (smoothCorrections corrections)).
Proof.
  intros Hd. unfold calculateCorrections.
  rewrite decide_False by (by rewrite Hd).
  destruct (averageMeasurements_bins this first rest Hd)
    as (averaged & -> & _ & _).
  unfold mbind at 1, completion_bind at 1. cbv zeta.
  set (smoothed := applySmoothing this _ smoothing).
  assert (Hlen : length smoothed = 31%nat).
  { subst smoothed.
    rewrite applySmoothing_length, extractFrequencyResponse_map, length_map.
    apply length_frequencies. }
  clearbody smoothed. destruct smoothed as [|s0 tail]; [done|].
  destruct (max_of_upper (s0 :: tail) s0) as (m & -> & Hmax);
    [by left|].
  eexists. split; [|split; [|reflexivity]].
  - by rewrite length_map.
  - intros v Hv. apply list_elem_of_fmap in Hv as (y & -> & Hy).
    specialize (Hmax y Hy). lra.
Qed.

Lemma constructor_curves (rate : R) (name : string) :
  name ∈ ["flat"; "harman"; "b&k"; "custom"]%string ->
  exists curve,
    targetCurves (constructor rate) !! name = Some curve
    /\ length curve = 31%nat.
Proof.
  intros Hn. unfold constructor. cbn [targetCurves].
  apply elem_of_cons in Hn as [->|Hn].
  { eexists. rewrite lookup_insert_eq. split; [done|]. apply length_replicate. }
  apply elem_of_cons in Hn as [->|Hn].
  { eexists. rewrite lookup_insert_ne by done. rewrite lookup_insert_eq.
    split; [done|]. unfold generateHarmanCurve. by rewrite length_map. }
  apply elem_of_cons in Hn as [->|Hn].
  { eexists. do 2 rewrite lookup_insert_ne by done. rewrite lookup_insert_eq.
    split; [done|]. unfold generateBKCurve. by rewrite length_map. }
  apply elem_of_cons in Hn as [->|Hn].
  { eexists. do 3 rewrite lookup_insert_ne by done. rewrite lookup_insert_eq.
    split; [done|]. apply length_replicate. }
  by apply not_elem_of_nil in Hn.
Qed.

Lemma correction_loop_valid (curve normalized : list R) (n : nat) :
  (n <= length curve)%nat -> (n <= length normalized)%nat ->
  forall c, c ∈ map (correction_at curve normalized) (seq 0 n) ->
            valid_correction c.
Proof.
  intros Hc Hn c Hin.
  apply list_elem_of_fmap in Hin as (i & -> & Hi).
  apply elem_of_seq in Hi.
  destruct (lookup_lt_is_Some_2 curve i) as [t Ht]; [lia|].
  destruct (lookup_lt_is_Some_2 normalized i) as [m Hm]; [lia|].
  by eapply correction_at_valid.
Qed.

(** C3: on any object with a non-empty measurement list, and for any
    name under which [targetCurves] stores a curve with an entry for
    each of the 31 bands, [calculateCorrections] returns 31 entries, each
    a number in [-10, 10] that is an integer multiple of 0.5; this holds
    whatever the stored curve and the measured levels are, so for values
    that reach the lower or the upper clamp, that are rounded from off
    the 0.5 grid, and that come out of the 3-point mean of
    [smoothCorrections].  Each of the four names that the constructor
    recognizes stores such a curve. *)
Theorem calculateCorrections_clamped_quantized (rate : R)
    (this : Calibration) (targetCurveName smoothing : string)
    (first : list R) (rest : list (list R)) (curve : list R) :
  (forall name, name ∈ ["flat"; "harman"; "b&k"; "custom"]%string ->
     exists builtin,
       targetCurves (constructor rate) !! name = Some builtin
       /\ length builtin = 31%nat)
  /\ (measurementData this = first :: rest ->
      targetCurves this !! targetCurveName = Some curve ->
      (31 <= length curve)%nat ->
      exists corrections,
        calculateCorrections this targetCurveName smoothing
        = Return corrections
        /\ length corrections = 31%nat
        /\ forall c, c ∈ corrections ->
             exists v, c = Num v /\ -10 <= v <= 10
                       /\ exists k : Z, v = IZR k * (1/2)).
Proof.
  split; [apply constructor_curves|].
  intros Hd Hcurve Hclen.
  destruct (calculateCorrections_run this targetCurveName smoothing first rest)
    as (normalized & Hlen & _ & ->); [done|].
  rewrite Hcurve, correction_loop_some.
  eexists. split; [reflexivity|]. split.
  - by rewrite smoothCorrections_length, length_map, length_seq.
  - apply smoothCorrections_valid. apply correction_loop_valid; [done|lia].
Qed.

(** C6: with no retained snapshot [calculateCorrections] throws
    [Error('No valid measurement data collected')] and returns no
    vector; this is the case after a session without submissions. *)
Theorem calculateCorrections_empty (this : Calibration)
    (targetCurveName smoothing : string) :
  measurementData this = [] ->
  calculateCorrections this targetCurveName smoothing
  = Throw (Error "No valid measurement data collected")
  /\ calculateCorrections (measureWithMusic this []) targetCurveName smoothing
     = Throw (Error "No valid measurement data collected").
Proof.
  intros Hd. unfold calculateCorrections. split.
  - by rewrite Hd.
  - reflexivity.
Qed.

(** ** The flat target *)

Lemma correction_at_flat (normalized : list R) (i : nat) (m : R) :
  (i < 31)%nat -> normalized !! i = Some m -> m <= -20 ->
  correction_at (replicate 31 0) normalized i = Num 10.
Proof.
  intros Hi Hm Hle. unfold correction_at.
  rewrite lookup_replicate_2 by done. rewrite Hm. cbn.
  rewrite clamp_high by lra. by rewrite quantize_ten.
Qed.

Lemma smoothCorrections_all_ten (j : nat) :
  (j < 31)%nat ->
  smoothCorrections (replicate 31 (Num 10)) !! j = Some (Num 10).
Proof.
  intros Hj. rewrite smoothCorrections_lookup.
  rewrite lookup_replicate_2 by done. f_equal.
  case_decide as Hin; [|done].
  apply elem_of_seq in Hin. rewrite length_replicate in Hin.
  unfold smooth_at. rewrite !lookup_replicate_2 by lia. cbn.
  replace ((10 + 10 + 10) / 3) with 10 by lra.
  by rewrite quantize_ten.
Qed.

(** With the flat target and the reference level at -20 dB every band
    is corrected by +10 dB, whatever was measured: the normalized
    response never exceeds -20 dB, so 0.7 times its distance to the
    0 dB target is at least 14 dB, which the clamp cuts to 10. *)
Lemma calculateCorrections_flat (this : Calibration) (smoothing : string)
    (first : list R) (rest : list (list R)) :
  measurementData this = first :: rest ->
  referenceLevel this = -20 ->
  targetCurves this !! "flat" = Some (replicate 31 0) ->
  exists corrections,
    calculateCorrections this "flat" smoothing = Return corrections
    /\ length corrections = 31%nat
    /\ forall i, (i < 31)%nat -> corrections !! i = Some (Num 10).
Proof.
  intros Hd Href Hflat.
  destruct (calculateCorrections_run this "flat" smoothing first rest Hd)
    as (normalized & Hlen & Hmax & ->).
  rewrite Hflat, correction_loop_some.
  assert (Hten : map (correction_at (replicate 31 0) normalized) (seq 0 31)
                 = replicate 31 (Num 10)).
  { apply list_eq. intros i. rewrite list_lookup_fmap.
    destruct (decide (i < 31)%nat) as [Hi|Hi].
    - rewrite lookup_seq_lt by done. rewrite lookup_replicate_2 by done.
      destruct (lookup_lt_is_Some_2 normalized i) as [m Hm]; [lia|].
      cbn. f_equal. apply (correction_at_flat _ _ m); [done..|].
      rewrite <- Href. apply Hmax. by eapply list_elem_of_lookup_2.
    - rewrite lookup_seq_ge by lia.
      symmetry. apply lookup_replicate_None. lia. }
  rewrite Hten. eexists. split; [reflexivity|]. split.
  - by rewrite smoothCorrections_length, length_replicate.
  - apply smoothCorrections_all_ten.
Qed.

Lemma scenario_data :
  measurementData scenario
  = scenario_snapshot :: replicate 19 scenario_snapshot.
Proof. reflexivity. Qed.

Lemma scenario_flat : targetCurves scenario !! "flat" = Some (replicate 31 0).
Proof.
  change (targetCurves scenario) with (targetCurves (constructor 48000)).
  unfold constructor. cbn [targetCurves]. by rewrite lookup_insert_eq.
Qed.

(** C2: in the end-to-end scenario [calculateCorrections] returns 31
    corrections, and every one of them is +10 dB: those of the bands
    outside [100 Hz, 10 kHz], and those of the bands inside as well,
    whose response is at the reference level and which need no
    correction.  The loop compares the 0 dB target with a response that
    has been normalized to the reference level of -20 dB, and does not
    take the reference level off as the loop of the earlier variant
    does ([Legacy.correction_at]). *)
Theorem scenario_corrections (smoothing : string) :
  exists corrections,
    calculateCorrections scenario "flat" smoothing = Return corrections
    /\ length corrections = 31%nat
    /\ forall i f, frequencies !! i = Some f ->
                   corrections !! i = Some (Num 10).
Proof.
  destruct (calculateCorrections_flat scenario smoothing _ _ scenario_data
              eq_refl scenario_flat) as (corrections & Hret & Hlen & Hall).
  exists corrections. split; [done|]. split; [done|].
  intros i f Hf. apply Hall. apply lookup_lt_Some in Hf.
  by rewrite length_frequencies in Hf.
Qed.

(** The 1 kHz band lies inside the plateau; the correction that
    [calculateCorrections] returns for it is +10 dB, which is not within
    0.5 dB of 0. *)
Lemma scenario_plateau_correction :
  exists corrections,
    calculateCorrections scenario "flat" "1/3" = Return corrections
    /\ frequencies !! 17%nat = Some 1000
    /\ 100 <= 1000 <= 10000
    /\ corrections !! 17%nat = Some (Num 10)
    /\ ~ (Rabs (10 - 0) <= 1/2).
Proof.
  destruct (calculateCorrections_flat scenario "1/3" _ _ scenario_data
              eq_refl scenario_flat) as (corrections & Hret & Hlen & Hall).
  exists corrections. split; [done|]. split; [reflexivity|].
  split; [lra|]. split; [apply Hall; lia|].
  rewrite Rabs_right by lra. lra.
Qed.

(** ** The custom target *)




(** ** The model on small inputs *)

Example round_ties_up :
  Math.round (5/2) = 3 /\ Math.round (-5/2) = -2 /\ Math.round (7/3) = 2.
Proof.
  unfold Math.round. repeat split.
  - rewrite (Zfloor_eq 3) by lra. done.
  - rewrite (Zfloor_eq (-2)) by lra. done.
  - rewrite (Zfloor_eq 2) by lra. done.
Qed.

Example quantize_examples :
  quantize (33/10) = 7/2 /\ quantize (-13/4) = -3 /\ quantize (20/3) = 13/2.
Proof.
  unfold quantize, Math.round. repeat split.
  - rewrite (Zfloor_eq 7) by lra. lra.
  - rewrite (Zfloor_eq (-6)) by lra. lra.
  - rewrite (Zfloor_eq 13) by lra. lra.
Qed.

Ltac eval_indices :=
  repeat match goal with
         | |- context [Z.to_nat ?z] =>
             let n := eval vm_compute in (Z.to_nat z) in
             progress change (Z.to_nat z) with n
         | |- context [(?a + 1)%Z] =>
             let n := eval vm_compute in (a + 1)%Z in
             progress change (a + 1)%Z with n
         end.

Ltac scan_step :=
  first
    [ rewrite scan_bins_step by (cbn; lia);
      first [ erewrite scan_bin_above by first [lia | reflexivity | lra]
            | erewrite scan_bin_below by first [lia | reflexivity | lra]
            | rewrite scan_bin_negative by lia ];
      cbn [scan_sum scan_count scan_reads]; eval_indices
    | rewrite scan_bins_stop by (cbn; lia) ].

Ltac eval_scan :=
  eval_indices; repeat scan_step;
  cbn [scan_sum scan_count scan_reads];
  first [ rewrite decide_True by lia | rewrite decide_False by lia ].

(** Bin width 1, target 1.5: the window is bins 0 to 3, of which bins 1
    and 2 are above the floor; all four are read. *)
Example extract_band_example :
  extract_band (-80) 1 [-90; -10; -30; -90] (3/2)
  = ((0 + -10 + -30) / INR 2, [3; 2; 1; 0]%Z).
Proof.
  unfold extract_band, Math.floor, Math.ceil.
  rewrite (Zfloor_eq 0) by lra. rewrite (Zceil_eq 3) by lra.
  eval_scan. reflexivity.
Qed.

(** A window wholly to the left of the spectrum reads nothing. *)
Example extract_band_negative_window :
  extract_band (-80) 1 [-10; -10] (-5) = (-80, []).
Proof.
  unfold extract_band, Math.floor, Math.ceil.
  rewrite (Zfloor_eq (-6)) by lra. rewrite (Zceil_eq (-4)) by lra.
  eval_scan. reflexivity.
Qed.

(** A window that runs past the end of the spectrum stops at the last
    bin. *)
Example extract_band_past_end :
  extract_band (-80) 1 [-90; -10] 1 = ((0 + -10) / INR 1, [1; 0]%Z).
Proof.
  unfold extract_band, Math.floor, Math.ceil.
  rewrite (Zfloor_eq 0) by lra. rewrite (Zceil_eq 2) by lra.
  eval_scan. reflexivity.
Qed.

(** A step from +10 to 0 is spread over the neighbours; the ends stay. *)
Example smoothCorrections_example :
  smoothCorrections [Num 10; Num 10; Num 0; Num 0]
  = [Num 10; Num (13/2); Num (7/2); Num 0].
Proof.
  unfold smoothCorrections. cbn [length Nat.sub seq fold_left].
  unfold smooth_at.
  cbn [lookup list_lookup Nat.sub Nat.add default Datatypes.id
       insert list_insert].
  cbn [jsnum_map jsnum_map2].
  unfold quantize, Math.round.
  rewrite (Zfloor_eq 13) by lra. rewrite (Zfloor_eq 7) by lra.
  repeat f_equal; lra.
Qed.

(** Twelve frames: ten discarded, one silent, one retained. *)
Example measureWithMusic_example :
  measurementData
    (measureWithMusic (constructor 48000)
                      (replicate 10 [-20] ++ [[-90; -85]; [-90; -20]]))
  = [[-90; -20]].
Proof.
  unfold measureWithMusic.
  destruct (collect_session (constructor 48000)
              (replicate 10 [-20] ++ [[-90; -85]; [-90; -20]])) as [-> _].
  cbn [replicate app drop].
  rewrite filter_cons, decide_False.
  - rewrite filter_cons, decide_True; [done|].
    apply peak_above_spec. exists (-20). split; [set_solver|].
    split; [|cbn; lra].
    intros x Hx. apply elem_of_cons in Hx as [->|Hx]; [lra|].
    apply elem_of_cons in Hx as [->|Hx]; [lra|].
    by apply not_elem_of_nil in Hx.
  - intros (m & Hm & _ & Hfl)%peak_above_spec. cbn in Hfl.
    apply elem_of_cons in Hm as [->|Hm]; [lra|].
    apply elem_of_cons in Hm as [->|Hm]; [lra|].
    by apply not_elem_of_nil in Hm.
Qed.

(** ** The statements at concrete inputs *)

Lemma averageMeasurements_power_mean_example :
  measurementData example_session = [-20; -90] :: [[-20; -90]]
  /\ exists averaged,
       averageMeasurements example_session = Return averaged
       /\ length averaged = 2%nat.
Proof.
  split; [reflexivity|].
  destruct (averageMeasurements_power_mean example_session
              [-20; -90] [[-20; -90]] eq_refl) as (averaged & Hret & Hlen & _).
  exists averaged. split; [exact Hret | exact Hlen].
Defined.

Lemma averageMeasurements_above_floor_example :
  measurementData example_session = [-20; -90] :: [[-20; -90]]
  /\ exists averaged,
       averageMeasurements example_session = Return averaged
       /\ forall i v, averaged !! i = Some v ->
                      noiseFloor example_session <= v.
Proof.
  split; [reflexivity|].
  exact (averageMeasurements_above_floor example_session
           [-20; -90] [[-20; -90]] eq_refl).
Defined.

Lemma collectMeasurements_retained_example :
  measurementData (measureWithMusic (constructor 48000) [[-20]; [-20]])
  = filter (peak_above (noiseFloor (constructor 48000)))
           (drop 10 [[-20]; [-20]]).
Proof.
  exact (proj1 (collectMeasurements_retained (constructor 48000)
                  [[-20]; [-20]])).
Defined.


Lemma applySmoothing_window_mean_example :
  ("1/3"%string, 1/3) ∈ [("1/3"%string, 1/3); ("1/6"%string, 1/6);
                         ("1/12"%string, 1/12)]
  /\ frequencies !! 0%nat = Some 20
  /\ bump_response !! 0%nat = Some 0
  /\ applySmoothing example_session bump_response "1/3" !! 0%nat
     = Some (let vs := window_values (noiseFloor example_session)
                         (20 * Math.pow 2 (- (1/3) / 2))
                         (20 * Math.pow 2 (1/3 / 2)) bump_response in
             if decide (vs = []) then 0 else mean vs).
Proof.
  assert (Hq : ("1/3"%string, 1/3) ∈ [("1/3"%string, 1/3); ("1/6"%string, 1/6);
                                      ("1/12"%string, 1/12)])
    by apply list_elem_of_here.
  split; [exact Hq|]. split; [reflexivity|]. split; [reflexivity|].
  exact (applySmoothing_window_mean example_session bump_response "1/3" (1/3)
           0 20 0 Hq eq_refl eq_refl).
Defined.

Lemma calculateCorrections_clamped_quantized_example :
  measurementData stepped_session
  = level_snapshot :: replicate 19 level_snapshot
  /\ targetCurves stepped_session !! "custom" = Some stepped_curve
  /\ (31 <= length stepped_curve)%nat
  /\ exists corrections,
       calculateCorrections stepped_session "custom" "1/3"
       = Return corrections
       /\ length corrections = 31%nat
       /\ forall c, c ∈ corrections ->
            exists v, c = Num v /\ -10 <= v <= 10
                      /\ exists k : Z, v = IZR k * (1/2).
Proof.
  assert (Hd : measurementData stepped_session
               = level_snapshot :: replicate 19 level_snapshot)
    by reflexivity.
  assert (Hcurve : targetCurves stepped_session !! "custom"
                   = Some stepped_curve).
  { unfold stepped_session, assign_custom, set_targetCurves.
    cbn [targetCurves]. apply lookup_insert_eq. }
  assert (Hlen : (31 <= length stepped_curve)%nat).
  { unfold stepped_curve. cbn [length]. rewrite length_replicate. lia. }
  split; [exact Hd|]. split; [exact Hcurve|]. split; [exact Hlen|].
  exact (proj2 (calculateCorrections_clamped_quantized 48000 stepped_session
                  "custom" "1/3" level_snapshot
                  (replicate 19 level_snapshot) stepped_curve)
               Hd Hcurve Hlen).
Defined.

Lemma calculateCorrections_empty_example :
  measurementData (constructor 48000) = []
  /\ calculateCorrections (constructor 48000) "flat" "1/3"
     = Throw (Error "No valid measurement data collected").
Proof.
  split; [reflexivity|].
  exact (proj1 (calculateCorrections_empty (constructor 48000) "flat" "1/3"
                  eq_refl)).
Defined.

Lemma scenario_corrections_example :
  exists corrections,
    calculateCorrections scenario "flat" "1/3" = Return corrections
    /\ corrections !! 0%nat = Some (Num 10).
Proof.
  destruct (scenario_corrections "1/3") as (corrections & Hret & _ & Hall).
  exists corrections. split; [exact Hret|].
  exact (Hall 0%nat 20 eq_refl).
Defined.


(** * Further properties of the calibration code *)

(** ** applySmoothing on the ISO grid *)

(** The factors of a window of at most a third of an octave. *)
Lemma window_factor_bounds (q : R) :
  0 <= q <= 1/3 ->
  4/5 < Math.pow 2 (- q / 2) <= 1 /\ 1 <= Math.pow 2 (q / 2) < 5/4.
Proof.
  intros Hq. pose proof pow2_sixth_bounds as [_ Hsix].
  unfold Math.pow in *.
  assert (Hone : 1 <= Rpower 2 (q / 2)).
  { rewrite <- (Rpower_O 2) at 1 by lra. apply Rle_Rpower; lra. }
  assert (Hup : Rpower 2 (q / 2) <= Rpower 2 (1 / 3 / 2))
    by (apply Rle_Rpower; lra).
  replace (- q / 2) with (- (q / 2)) by lra. rewrite Rpower_Ropp.
  set (h := Rpower 2 (q / 2)) in *.
  assert (Hinv : h * / h = 1) by (apply Rinv_r; lra).
  assert (Hpos : 0 < / h) by (apply Rinv_0_lt_compat; lra).
  repeat split; nra.
Qed.

Lemma octaveFraction_of_cases (smoothingType : string) :
  octaveFraction_of smoothingType = 1/3
  \/ octaveFraction_of smoothingType = 1/6
  \/ octaveFraction_of smoothingType = 1/12.
Proof.
  unfold octaveFraction_of, octaveFractions.
  destruct (decide (smoothingType = "1/3")) as [->|H3].
  { left. by rewrite lookup_insert_eq. }
  rewrite lookup_insert_ne by done.
  destruct (decide (smoothingType = "1/6")) as [->|H6].
  { right; left. by rewrite lookup_insert_eq. }
  rewrite lookup_insert_ne by done.
  destruct (decide (smoothingType = "1/12")) as [->|H12].
  { right; right. by rewrite lookup_insert_eq. }
  rewrite lookup_insert_ne by done. left. by rewrite lookup_empty.
Qed.

Lemma window_values_of_own (floor lower upper : R) (data : list R)
    (j : nat) (fj : R) (bands : list (nat * R)) :
  lower <= fj <= upper ->
  window_values_of floor lower upper data ((j, fj) :: bands)
  = match data !! j with
    | Some v => if decide (floor < v) then [v] else []
    | None => []
    end ++ window_values_of floor lower upper data bands.
Proof.
  intros Hw. unfold window_values_of.
  cbn [omap list_omap fst snd]. rewrite decide_True by done.
  destruct (data !! j) as [v|]; [|done]. by case_decide.
Qed.

Ltac only_own_band :=
  unfold window_values; rewrite frequencies_indexed;
  repeat first [ rewrite window_values_of_out by lra
               | rewrite window_values_of_own by lra ];
  rewrite window_values_of_nil; apply app_nil_r.

(** Adjacent ISO bands are at least a factor 5/4 apart, so a window of
    at most a third of an octave around a band holds that band only. *)
Lemma window_values_own_band (floor lo hi : R) (data : list R) (i : nat)
    (f : R) :
  4/5 < lo <= 1 -> 1 <= hi < 5/4 ->
  frequencies !! i = Some f ->
  window_values floor (f * lo) (f * hi) data
  = match data !! i with
    | Some v => if decide (floor < v) then [v] else []
    | None => []
    end.
Proof.
  intros Hlo Hhi Hf.
  do 31 (destruct i as [|i];
         [ injection Hf as <-; only_own_band | ]).
  discriminate.
Qed.

(** X1: on the 31 ISO bands [applySmoothing] returns its input
    unchanged, for every input vector and every smoothing type: each
    window holds only its own band, whose value is either averaged with
    itself or left in place.  (A smoothing type that names a member of
    [Object.prototype] makes both bounds NaN in JavaScript; no band is
    then inside any window and the data are unchanged as well.) *)
Theorem applySmoothing_identity (this : Calibration) (data : list R)
    (smoothingType : string) :
  applySmoothing this data smoothingType = data.
Proof.
  apply list_eq. intros i. rewrite applySmoothing_lookup.
  unfold smoothed_over.
  destruct (data !! i) as [x|] eqn:Hx; [|by destruct (frequencies !! i)].
  destruct (frequencies !! i) as [f|] eqn:Hf; [|done].
  assert (Hq : 0 <= octaveFraction_of smoothingType <= 1/3)
    by (destruct (octaveFraction_of_cases smoothingType) as [->|[->| ->]]; lra).
  destruct (window_factor_bounds _ Hq) as [Hlo Hhi].
  unfold window_lower, window_upper. cbv zeta.
  rewrite (window_values_own_band _ _ _ _ i f Hlo Hhi Hf), Hx.
  destruct (decide (noiseFloor this < x)).
  - rewrite decide_False by done. by rewrite mean_singleton.
  - by rewrite decide_True.
Qed.

(** ** The band grid and the target curves *)

Lemma frequencies_range (f : R) : f ∈ frequencies -> 20 <= f <= 20000.
Proof.
  unfold frequencies. intros Hf.
  repeat (apply elem_of_cons in Hf as [->|Hf]; [lra|]).
  by apply not_elem_of_nil in Hf.
Qed.

Lemma frequencies_adjacent (i : nat) (a b : R) :
  frequencies !! i = Some a -> frequencies !! S i = Some b ->
  5/4 * a <= b.
Proof.
  intros Ha Hb.
  do 30 (destruct i as [|i];
         [ injection Ha as <-; injection Hb as <-; lra | ]).
  destruct i; discriminate.
Qed.

Lemma frequencies_increasing (i j : nat) (fi fj : R) :
  (i < j)%nat ->
  frequencies !! i = Some fi -> frequencies !! j = Some fj -> fi < fj.
Proof.
  intros Hij Hi. revert fj. induction j as [|j IH]; intros fj Hj; [lia|].
  destruct (lookup_lt_is_Some_2 frequencies j) as [fm Hm].
  { apply lookup_lt_Some in Hj. lia. }
  pose proof (frequencies_adjacent j fm fj Hm Hj) as Hadj.
  assert (Hpos : 20 <= fm)
    by (apply frequencies_range; by eapply list_elem_of_lookup_2).
  destruct (decide (i = j)) as [->|Hne].
  - rewrite Hi in Hm. injection Hm as ->. lra.
  - assert (fi < fm) by (apply IH; [lia|done]). lra.
Qed.

Lemma generateHarmanCurve_map :
  generateHarmanCurve = map harman_gain frequencies.
Proof. reflexivity. Qed.

Lemma generateBKCurve_map : generateBKCurve = map bk_gain frequencies.
Proof. reflexivity. Qed.

Lemma harman_gain_range (f : R) : -4 <= harman_gain f <= 6.
Proof. unfold harman_gain. repeat case_decide; lra. Qed.

Lemma harman_gain_decreasing (f g : R) :
  f <= g -> harman_gain g <= harman_gain f.
Proof. intros Hfg. unfold harman_gain. repeat case_decide; lra. Qed.

(** X2: the Harman curve built by the constructor has one gain per
    band, each between -4 and 6 dB, and never rises from a band to a
    higher band. *)
Theorem generateHarmanCurve_decreasing :
  length generateHarmanCurve = 31%nat
  /\ (forall i g, generateHarmanCurve !! i = Some g -> -4 <= g <= 6)
  /\ (forall i j gi gj,
        (i <= j)%nat ->
        generateHarmanCurve !! i = Some gi ->
        generateHarmanCurve !! j = Some gj -> gj <= gi).
Proof.
  rewrite generateHarmanCurve_map. split; [by rewrite length_map|]. split.
  - intros i g Hg. rewrite list_lookup_fmap in Hg.
    destruct (frequencies !! i); [|done]. injection Hg as <-.
    apply harman_gain_range.
  - intros i j gi gj Hij Hi Hj. rewrite list_lookup_fmap in Hi, Hj.
    destruct (frequencies !! i) as [fi|] eqn:Hfi; [|done].
    destruct (frequencies !! j) as [fj|] eqn:Hfj; [|done].
    injection Hi as <-. injection Hj as <-.
    apply harman_gain_decreasing.
    destruct (decide (i = j)) as [->|Hne].
    + rewrite Hfi in Hfj. injection Hfj as ->. lra.
    + left. apply (frequencies_increasing i j); [lia|done..].
Qed.

Lemma log10_ten : Math.log10 10 = 1.
Proof. unfold Math.log10. field. pose proof ln10_pos. lra. Qed.

Lemma log10_hundred_thousand : Math.log10 100000 = 5.
Proof.
  replace 100000 with (Math.pow 10 5); [apply log10_pow10|].
  unfold Math.pow. replace 5 with (INR 5) by (cbn; lra).
  rewrite Rpower_pow by lra. lra.
Qed.

Lemma bk_gain_decreasing (f g : R) : 0 < f -> f < g -> bk_gain g < bk_gain f.
Proof.
  intros Hf Hfg. unfold bk_gain. cbv zeta.
  pose proof (log10_increasing f g Hf Hfg). lra.
Qed.

Lemma bk_gain_range (f : R) : 20 <= f <= 20000 -> -4 < bk_gain f < 10.
Proof.
  intros Hf. unfold bk_gain. cbv zeta.
  assert (H1 : Math.log10 10 < Math.log10 f)
    by (apply log10_increasing; lra).
  assert (H2 : Math.log10 f < Math.log10 100000)
    by (apply log10_increasing; lra).
  rewrite log10_ten in H1. rewrite log10_hundred_thousand in H2. lra.
Qed.

(** X3: the B&K curve built by the constructor has one gain per band,
    each strictly between -4 and 10 dB, and falls strictly from every
    band to every higher band. *)
Theorem generateBKCurve_decreasing :
  length generateBKCurve = 31%nat
  /\ (forall i g, generateBKCurve !! i = Some g -> -4 < g < 10)
  /\ (forall i j gi gj,
        (i < j)%nat ->
        generateBKCurve !! i = Some gi ->
        generateBKCurve !! j = Some gj -> gj < gi).
Proof.
  rewrite generateBKCurve_map. split; [by rewrite length_map|]. split.
  - intros i g Hg. rewrite list_lookup_fmap in Hg.
    destruct (frequencies !! i) as [f|] eqn:Hf; [|done]. injection Hg as <-.
    apply bk_gain_range, frequencies_range. by eapply list_elem_of_lookup_2.
  - intros i j gi gj Hij Hi Hj. rewrite list_lookup_fmap in Hi, Hj.
    destruct (frequencies !! i) as [fi|] eqn:Hfi; [|done].
    destruct (frequencies !! j) as [fj|] eqn:Hfj; [|done].
    injection Hi as <-. injection Hj as <-.
    apply bk_gain_decreasing.
    + assert (20 <= fi <= 20000); [|lra].
      apply frequencies_range. by eapply list_elem_of_lookup_2.
    + by apply (frequencies_increasing i j).
Qed.

(** ** Corrections for the built-in targets *)

Lemma correction_at_clamped_high (curve normalized : list R) (i : nat)
    (t m : R) :
  curve !! i = Some t -> normalized !! i = Some m ->
  10 <= (t - m) * (7/10) ->
  correction_at curve normalized i = Num 10.
Proof.
  intros Ht Hm Hhigh. unfold correction_at. rewrite Ht, Hm. cbn.
  rewrite clamp_high by done. by rewrite quantize_ten.
Qed.

(** When every target gain is at least 100/7 dB above the reference
    level, every band is clamped to +10 dB. *)
Lemma calculateCorrections_high_target (this : Calibration)
    (targetCurveName smoothing : string) (curve first : list R)
    (rest : list (list R)) :
  measurementData this = first :: rest ->
  targetCurves this !! targetCurveName = Some curve ->
  length curve = 31%nat ->
  (forall t, t ∈ curve -> 100/7 <= t - referenceLevel this) ->
  calculateCorrections this targetCurveName smoothing
  = Return (replicate 31 (Num 10)).
Proof.
  intros Hd Hcurve Hlen Hhigh.
  destruct (calculateCorrections_run this targetCurveName smoothing
              first rest Hd) as (normalized & Hnlen & Hmax & ->).
  rewrite Hcurve, correction_loop_some.
  assert (Hten : map (correction_at curve normalized) (seq 0 31)
                 = replicate 31 (Num 10)).
  { apply list_eq. intros i. rewrite list_lookup_fmap.
    destruct (decide (i < 31)%nat) as [Hi|Hi].
    - rewrite lookup_seq_lt by done. rewrite lookup_replicate_2 by done.
      destruct (lookup_lt_is_Some_2 normalized i) as [m Hm]; [lia|].
      destruct (lookup_lt_is_Some_2 curve i) as [t Ht]; [lia|].
      cbn. f_equal. apply (correction_at_clamped_high _ _ _ t m); [done..|].
      assert (m <= referenceLevel this)
        by (apply Hmax; by eapply list_elem_of_lookup_2).
      assert (100/7 <= t - referenceLevel this)
        by (apply Hhigh; by eapply list_elem_of_lookup_2).
      lra.
    - rewrite lookup_seq_ge by lia.
      symmetry. apply lookup_replicate_None. lia. }
  rewrite Hten. cbn [mbind completion_bind]. f_equal.
  apply list_eq. intros j.
  destruct (decide (j < 31)%nat) as [Hj|Hj].
  - rewrite smoothCorrections_all_ten by done.
    by rewrite lookup_replicate_2.
  - rewrite !(proj2 (lookup_ge_None _ _)); [done| |].
    + rewrite length_replicate. lia.
    + rewrite smoothCorrections_length, length_replicate. lia.
Qed.

Lemma constructor_curves_floor (rate : R) (name : string) :
  name ∈ ["flat"; "harman"; "b&k"; "custom"]%string ->
  exists curve,
    targetCurves (constructor rate) !! name = Some curve
    /\ length curve = 31%nat
    /\ forall t, t ∈ curve -> -4 <= t.
Proof.
  intros Hn. unfold constructor. cbn [targetCurves].
  apply elem_of_cons in Hn as [->|Hn].
  { eexists. rewrite lookup_insert_eq. split; [done|].
    split; [apply length_replicate|].
    intros t [-> _]%elem_of_replicate. lra. }
  apply elem_of_cons in Hn as [->|Hn].
  { eexists. rewrite lookup_insert_ne by done. rewrite lookup_insert_eq.
    split; [done|]. rewrite generateHarmanCurve_map.
    split; [by rewrite length_map|].
    intros t (f & -> & _)%list_elem_of_fmap. apply harman_gain_range. }
  apply elem_of_cons in Hn as [->|Hn].
  { eexists. do 2 rewrite lookup_insert_ne by done. rewrite lookup_insert_eq.
    split; [done|]. rewrite generateBKCurve_map.
    split; [by rewrite length_map|].
    intros t (f & -> & Hf)%list_elem_of_fmap.
    apply frequencies_range in Hf. pose proof (bk_gain_range f Hf). lra. }
  apply elem_of_cons in Hn as [->|Hn].
  { eexists. do 3 rewrite lookup_insert_ne by done. rewrite lookup_insert_eq.
    split; [done|]. split; [apply length_replicate|].
    intros t [-> _]%elem_of_replicate. lra. }
  by apply not_elem_of_nil in Hn.
Qed.

(** X4: for an object built by the constructor, whatever non-empty
    measurement list it holds and whichever of its four target curves
    is chosen, [calculateCorrections] returns the same vector: +10 dB
    on each of the 31 bands.  The normalized response peaks at the
    reference level, -20 dB, and no built-in target is below -4 dB, so
    0.7 times the difference is at least 11.2 dB on every band. *)
Theorem calculateCorrections_builtin_constant (rate : R)
    (data : list (list R)) (targetCurveName smoothing : string) :
  data <> [] ->
  targetCurveName ∈ ["flat"; "harman"; "b&k"; "custom"]%string ->
  calculateCorrections (set_measurementData (constructor rate) data)
                       targetCurveName smoothing
  = Return (replicate 31 (Num 10)).
Proof.
  intros Hne Hname. destruct data as [|first rest]; [done|].
  destruct (constructor_curves_floor rate targetCurveName Hname)
    as (curve & Hcurve & Hlen & Hfloor).
  apply (calculateCorrections_high_target _ _ _ curve first rest);
    [done..|].
  intros t Ht. specialize (Hfloor t Ht). cbn. lra.
Qed.

(** ** More on averageMeasurements *)


Lemma sum_list_power_between (lo hi : R) (vs : list R) :
  (forall v, v ∈ vs -> lo <= v <= hi) ->
  INR (length vs) * (Math.pow 10 (lo / 20)) ^ 2
  <= sum_list (map (fun v => (Math.pow 10 (v / 20)) ^ 2) vs)
  <= INR (length vs) * (Math.pow 10 (hi / 20)) ^ 2.
Proof.
  induction vs as [|v vs IH]; intros Hall.
  - cbn. lra.
  - unfold sum_list in *. cbn [length map foldr]. rewrite S_INR.
    assert (Hv : lo <= v <= hi) by (apply Hall, list_elem_of_here).
    assert (Hmono : forall a b, a <= b ->
              Math.pow 10 (a / 20) ^ 2 <= Math.pow 10 (b / 20) ^ 2).
    { intros a b [Hab| ->]; [|lra].
      assert (Math.pow 10 (a / 20) < Math.pow 10 (b / 20))
        by (apply pow10_increasing; lra).
      pose proof (pow10_pos (a / 20)). nra. }
    pose proof (Hmono lo v (proj1 Hv)). pose proof (Hmono v hi (proj2 Hv)).
    assert (Hrest := IH (fun w Hw => Hall w (list_elem_of_further _ _ _ Hw))).
    lra.
Qed.

Lemma power_mean_dB_between (lo hi : R) (vs : list R) :
  (forall v, v ∈ vs -> lo <= v <= hi) ->
  vs <> [] ->
  lo <= power_mean_dB vs <= hi.
Proof.
  intros Hall Hne. unfold power_mean_dB.
  set (S := sum_list _). set (c := INR (length vs)).
  set (pl := Math.pow 10 (lo / 20)). set (ph := Math.pow 10 (hi / 20)).
  assert (Hc : 0 < c).
  { subst c. apply lt_0_INR. destruct vs; [done|cbn; lia]. }
  assert (Hpl : 0 < pl) by apply pow10_pos.
  assert (Hph : 0 < ph) by apply pow10_pos.
  assert (HS : c * pl ^ 2 <= S <= c * ph ^ 2)
    by (by apply sum_list_power_between).
  assert (Hq : pl ^ 2 <= S / c <= ph ^ 2).
  { split.
    - apply Rmult_le_reg_r with c; [done|].
      replace (S / c * c) with S by (field; lra). lra.
    - apply Rmult_le_reg_r with c; [done|].
      replace (S / c * c) with S by (field; lra). lra. }
  assert (Hs : pl <= Math.sqrt (S / c) <= ph).
  { split.
    - rewrite <- (sqrt_square_pos pl Hpl) at 1.
      unfold Math.sqrt. apply sqrt_le_1_alt. lra.
    - rewrite <- (sqrt_square_pos ph Hph).
      unfold Math.sqrt. apply sqrt_le_1_alt. lra. }
  assert (Hlo : 20 * Math.log10 pl = lo)
    by (subst pl; rewrite log10_pow10; lra).
  assert (Hhi : 20 * Math.log10 ph = hi)
    by (subst ph; rewrite log10_pow10; lra).
  assert (Math.log10 pl <= Math.log10 (Math.sqrt (S / c)))
    by (apply log10_le; lra).
  assert (Math.log10 (Math.sqrt (S / c)) <= Math.log10 ph)
    by (apply log10_le; lra).
  lra.
Qed.





(** ** Bounds on the extracted response *)

Section BinLoopBounds.

Variables floor top : R.
Variable fftData : list R.
Hypothesis fftData_top : forall x, x ∈ fftData -> x <= top.

Lemma scan_bin_between (bin : Z) (st : scan) :
  scan_between floor top st ->
  scan_between floor top (scan_bin floor fftData bin st).
Proof.
  unfold scan_between, scan_bin. intros Hst.
  case_decide; [|done].
  destruct (fftData !! Z.to_nat bin) as [v|] eqn:Hv; [|done].
  case_decide; [|done]. cbn [scan_sum scan_count]. rewrite S_INR.
  assert (v <= top) by (apply fftData_top; by eapply list_elem_of_lookup_2).
  lra.
Qed.

Lemma scan_bins_between (fuel : nat) (bin endBin : Z) (st : scan) :
  scan_between floor top st ->
  scan_between floor top (scan_bins fuel floor fftData bin endBin st).
Proof.
  revert bin st. induction fuel as [|fuel IH]; intros bin st Hst;
    cbn [scan_bins]; [done|].
  repeat case_decide; try done. by apply IH, scan_bin_between.
Qed.

Lemma extract_band_between (binWidth freq : R) :
  floor <= top ->
  floor <= fst (extract_band floor binWidth fftData freq) <= top.
Proof.
  intros Hft. unfold extract_band. cbn [fst].
  set (st := scan_bins _ _ _ _ _ _).
  assert (Hst : scan_between floor top st).
  { apply scan_bins_between. unfold scan_between. cbn. lra. }
  case_decide as Hc; [|lra].
  unfold scan_between in Hst.
  assert (Hn : 0 < INR (scan_count st)) by (by apply lt_0_INR).
  split.
  - apply Rmult_le_reg_r with (INR (scan_count st)); [done|].
    replace (scan_sum st / INR (scan_count st) * INR (scan_count st))
      with (scan_sum st) by (field; lra). lra.
  - apply Rmult_le_reg_r with (INR (scan_count st)); [done|].
    replace (scan_sum st / INR (scan_count st) * INR (scan_count st))
      with (scan_sum st) by (field; lra). lra.
Qed.

End BinLoopBounds.

(** X7: every value that [extractFrequencyResponse] returns lies between
    the noise floor and any level [top], at least the floor, that bounds
    the whole spectrum: a band is the mean of bins above the floor, or
    the floor. *)
Theorem extractFrequencyResponse_between (this : Calibration)
    (fftData targetFrequencies : list R) (top : R) :
  (forall x, x ∈ fftData -> x <= top) ->
  noiseFloor this <= top ->
  forall v, v ∈ extractFrequencyResponse this fftData targetFrequencies ->
            noiseFloor this <= v <= top.
Proof.
  intros Htop Hft v Hv. rewrite extractFrequencyResponse_map in Hv.
  apply list_elem_of_fmap in Hv as (freq & -> & _).
  by apply extract_band_between.
Qed.

(** ** Rounding to 0.5 dB *)

Lemma quantize_monotone (x y : R) : x <= y -> quantize x <= quantize y.
Proof.
  intros Hxy. unfold quantize, Math.round.
  assert (H : (Zfloor (x * 2 + / 2) <= Zfloor (y * 2 + / 2))%Z)
    by (apply Zfloor_le; lra).
  apply IZR_le in H. lra.
Qed.

Lemma quantize_half (k : Z) : quantize (IZR k / 2) = IZR k / 2.
Proof.
  unfold quantize, Math.round. rewrite (Zfloor_eq k); [done|]. lra.
Qed.

(** X8: rounding to the nearest 0.5 dB, as [calculateCorrections] and
    [smoothCorrections] do with [Math.round(c * 2) / 2], moves a value
    by at most 0.25 dB (a tie goes up), leaves every multiple of 0.5
    where it is, and keeps the order of values. *)
Theorem quantize_nearest_half (x : R) :
  (- (1/4) < quantize x - x <= 1/4)
  /\ (forall k : Z, quantize (IZR k / 2) = IZR k / 2)
  /\ (forall y, x <= y -> quantize x <= quantize y).
Proof.
  split; [|split; [apply quantize_half | apply quantize_monotone]].
  unfold quantize, Math.round.
  pose proof (Zfloor_bound (x * 2 + / 2)). lra.
Qed.

(** ** More on smoothCorrections *)

(** X9: [smoothCorrections] keeps the length of the vector and leaves
    its first and last entries as they are; a vector of at most two
    entries is returned unchanged. *)
Theorem smoothCorrections_ends (corrections : list jsnum) :
  length (smoothCorrections corrections) = length corrections
  /\ smoothCorrections corrections !! 0%nat = corrections !! 0%nat
  /\ smoothCorrections corrections !! (length corrections - 1)%nat
     = corrections !! (length corrections - 1)%nat
  /\ ((length corrections <= 2)%nat ->
      smoothCorrections corrections = corrections).
Proof.
  split; [apply smoothCorrections_length|].
  assert (Hout : forall j, j ∉ seq 1 (length corrections - 2) ->
            smoothCorrections corrections !! j = corrections !! j).
  { intros j Hj. rewrite smoothCorrections_lookup.
    destruct (corrections !! j); [|done]. by rewrite decide_False. }
  split; [|split].
  - apply Hout. intros Hin%elem_of_seq. lia.
  - apply Hout. intros Hin%elem_of_seq. lia.
  - intros Hlen. apply list_eq. intros j. apply Hout.
    intros Hin%elem_of_seq. lia.
Qed.

Lemma smooth_at_between (corrections : list jsnum) (j : nat) (klo khi : Z) :
  (forall c, c ∈ corrections ->
     exists v, c = Num v /\ IZR klo / 2 <= v <= IZR khi / 2) ->
  j ∈ seq 1 (length corrections - 2) ->
  exists v, smooth_at corrections j = Num v
            /\ IZR klo / 2 <= v <= IZR khi / 2.
Proof.
  intros Hall Hj. apply elem_of_seq in Hj.
  assert (Hget : forall k, (k < length corrections)%nat ->
            exists v, corrections !! k = Some (Num v)
                      /\ IZR klo / 2 <= v <= IZR khi / 2).
  { intros k Hk. destruct (lookup_lt_is_Some_2 corrections k Hk) as [c Hc].
    destruct (Hall c) as (v & -> & Hv); [by eapply list_elem_of_lookup_2|].
    by exists v. }
  destruct (Hget (j - 1)%nat) as (a & Ha & Hra); [lia|].
  destruct (Hget j) as (b & Hb & Hrb); [lia|].
  destruct (Hget (j + 1)%nat) as (c & Hc & Hrc); [lia|].
  unfold smooth_at. rewrite Ha, Hb, Hc. cbn.
  eexists. split; [reflexivity|].
  split.
  - rewrite <- (quantize_half klo). apply quantize_monotone. lra.
  - rewrite <- (quantize_half khi). apply quantize_monotone. lra.
Qed.

(** X10: [smoothCorrections] does not overshoot: when every entry is a
    number between two multiples of 0.5, so is every entry of the
    result; in particular a constant vector on the 0.5 grid is
    returned unchanged. *)
Theorem smoothCorrections_between (corrections : list jsnum) (klo khi : Z) :
  (forall c, c ∈ corrections ->
     exists v, c = Num v /\ IZR klo / 2 <= v <= IZR khi / 2) ->
  forall c, c ∈ smoothCorrections corrections ->
    exists v, c = Num v /\ IZR klo / 2 <= v <= IZR khi / 2.
Proof.
  intros Hall c Hc. apply list_elem_of_lookup in Hc as [j Hj].
  rewrite smoothCorrections_lookup in Hj.
  destruct (corrections !! j) as [c0|] eqn:Hc0; [|done].
  injection Hj as <-. case_decide.
  - by apply smooth_at_between.
  - apply Hall. by eapply list_elem_of_lookup_2.
Qed.

(** ** A session followed by the calculation *)

Lemma peak_above_exists (floor : R) (frame : list R) :
  peak_above floor frame <-> exists x, x ∈ frame /\ floor < x.
Proof.
  rewrite peak_above_spec. split.
  - intros (m & Hm & _ & Hfl). by exists m.
  - intros (x & Hx & Hfl).
    destruct (max_of_upper frame x Hx) as (m & Hmax & Hub).
    exists m. split; [|split; [done|]].
    + destruct frame as [|x0 xs]; [by apply not_elem_of_nil in Hx|].
      rewrite max_of_cons in Hmax. injection Hmax as <-.
      apply fold_Rmax_elem.
    + specialize (Hub x Hx). lra.
Qed.

Lemma calculateCorrections_error_iff (this : Calibration)
    (targetCurveName smoothing : string) :
  calculateCorrections this targetCurveName smoothing
  = Throw (Error "No valid measurement data collected")
  <-> measurementData this = [].
Proof.
  split.
  - intros Hthrow. destruct (measurementData this) as [|first rest] eqn:Hd;
      [done|].
    destruct (calculateCorrections_run this targetCurveName smoothing
                first rest Hd) as (normalized & _ & _ & Heq).
    rewrite Heq in Hthrow.
    destruct (targetCurves this !! targetCurveName) as [curve|].
    + by rewrite correction_loop_some in Hthrow.
    + by rewrite correction_loop_none in Hthrow.
  - intros Hd. unfold calculateCorrections. by rewrite Hd.
Qed.

Lemma filter_nil_iff {A : Type} (P : A -> Prop) `{!forall x, Decision (P x)}
    (l : list A) :
  filter P l = [] <-> forall x, x ∈ l -> ~ P x.
Proof.
  induction l as [|a l IH].
  - split; [|done]. intros _ x Hx. by apply not_elem_of_nil in Hx.
  - rewrite filter_cons. destruct (decide (P a)) as [Ha|Ha].
    + split; [done|]. intros Hall. exfalso.
      apply (Hall a); [apply list_elem_of_here | done].
    + rewrite IH. split.
      * intros Hall x [->|Hx]%elem_of_cons; [done | by apply Hall].
      * intros Hall x Hx. by apply Hall, list_elem_of_further.
Qed.

(** X11: after a measurement session [calculateCorrections] throws
    [Error('No valid measurement data collected')] exactly when no
    frame after the first ten has a level above the noise floor; in
    particular after every session of at most ten frames. *)
Theorem session_without_signal (this : Calibration) (frames : list (list R))
    (targetCurveName smoothing : string) :
  (calculateCorrections (measureWithMusic this frames) targetCurveName
                        smoothing
   = Throw (Error "No valid measurement data collected")
   <-> forall frame x, frame ∈ drop 10 frames -> x ∈ frame ->
                       x <= noiseFloor this)
  /\ ((length frames <= 10)%nat ->
      calculateCorrections (measureWithMusic this frames) targetCurveName
                           smoothing
      = Throw (Error "No valid measurement data collected")).
Proof.
  assert (Hiff :
    calculateCorrections (measureWithMusic this frames) targetCurveName
                         smoothing
    = Throw (Error "No valid measurement data collected")
    <-> forall frame x, frame ∈ drop 10 frames -> x ∈ frame ->
                        x <= noiseFloor this).
  { rewrite calculateCorrections_error_iff. unfold measureWithMusic.
    destruct (collect_session this frames) as [-> _].
    rewrite filter_nil_iff. split.
    - intros Hall frame x Hframe Hx.
      destruct (Rle_dec x (noiseFloor this)) as [|Hgt]; [done|].
      exfalso. apply (Hall frame Hframe), peak_above_exists.
      exists x. split; [done|lra].
    - intros Hall frame Hframe (x & Hx & Hfl)%peak_above_exists.
      specialize (Hall frame x Hframe Hx). lra. }
  split; [exact Hiff|].
  intros Hlen. apply Hiff. intros frame x Hframe.
  rewrite drop_ge in Hframe by done. by apply not_elem_of_nil in Hframe.
Qed.

(** X12: a session starts from nothing and touches nothing else: the
    snapshots retained by [measureWithMusic] do not depend on the
    measurement list the object held before, and the noise floor, the
    reference level, the target curves and the sample rate are as
    before the session. *)
Theorem session_isolated (this : Calibration) (stale : list (list R))
    (frames : list (list R)) :
  measurementData (measureWithMusic (set_measurementData this stale) frames)
  = measurementData (measureWithMusic this frames)
  /\ noiseFloor (measureWithMusic this frames) = noiseFloor this
  /\ referenceLevel (measureWithMusic this frames) = referenceLevel this
  /\ targetCurves (measureWithMusic this frames) = targetCurves this
  /\ sampleRate (measureWithMusic this frames) = sampleRate this.
Proof.
  unfold measureWithMusic, collectMeasurements.
  destruct (measure_fold 10 (set_measurementData this []) frames)
    as (H1 & H2 & H3 & H4 & H5).
  destruct (measure_fold 10
              (set_measurementData (set_measurementData this stale) [])
              frames) as (H1' & _).
  rewrite H1, H1', H2, H3, H4, H5. done.
Qed.

(** X13: with retained data, a target-curve name that is neither stored
    in [targetCurves] nor inherited from [Object.prototype] makes
    [calculateCorrections] throw a TypeError at the first band; no
    vector is returned. *)
Theorem calculateCorrections_unknown_curve (this : Calibration)
    (targetCurveName smoothing : string) (first : list R)
    (rest : list (list R)) :
  measurementData this = first :: rest ->
  targetCurveName ∉ Object_prototype_properties ->
  targetCurves this !! targetCurveName = None ->
  calculateCorrections this targetCurveName smoothing = Throw TypeError.
Proof.
  intros Hd _ Hnone.
  destruct (calculateCorrections_run this targetCurveName smoothing
              first rest Hd) as (normalized & _ & _ & ->).
  by rewrite Hnone, correction_loop_none.
Qed.

(** ** calibrate *)

(** X14: [calibrate] never leaves the object busy and never runs twice
    at once: called on a busy object it throws
    [Error('Calibration already in progress')] and changes nothing, the
    flag included; called on an idle object it ends idle whatever
    happens, and when the microphone request is rejected the measurement
    list is untouched and a rejection named 'NotAllowedError' surfaces
    as [Error('Microphone access denied')], any other one unchanged. *)
Theorem calibrate_flag (st : session) (opts : options) (mic : microphone)
    (frames : list (list R)) :
  (isCalibrating st = true ->
   calibrate st opts mic frames
   = (inr (Thrown (Error "Calibration already in progress")), st))
  /\ (isCalibrating st = false ->
      isCalibrating (snd (calibrate st opts mic frames)) = false)
  /\ (isCalibrating st = false ->
      forall name, mic = Rejected name ->
        snd (calibrate st opts mic frames) = idle (calibration st)
        /\ (name = "NotAllowedError"%string ->
            fst (calibrate st opts mic frames)
            = inr (Thrown (Error "Microphone access denied")))
        /\ (name <> "NotAllowedError"%string ->
            fst (calibrate st opts mic frames) = inr (DOMException name))).
Proof.
  unfold calibrate. split; [by intros ->|]. split.
  - intros ->. destruct mic as [|name]; [|done].
    by destruct (calculateCorrections _ _ _).
  - intros -> name ->. cbn [fst snd]. split; [done|].
    split; intros Hname; [by rewrite decide_True | by rewrite decide_False].
Qed.

Lemma measured_fields (this : Calibration) (frames : list (list R))
    (test : bool) :
  let measured :=
    if test then measureWithTestSignal this frames
    else measureWithMusic this frames in
  measurementData measured
  = filter (peak_above (noiseFloor this)) (drop 10 frames)
  /\ referenceLevel measured = referenceLevel this
  /\ targetCurves measured = targetCurves this.
Proof.
  assert (H : forall t : bool,
            (if t then measureWithTestSignal this frames
             else measureWithMusic this frames)
            = collectMeasurements (set_measurementData this []) frames)
    by (by intros []).
  cbv zeta. rewrite H. unfold collectMeasurements.
  destruct (measure_fold 10 (set_measurementData this []) frames)
    as (H1 & _ & H3 & H4 & _).
  by rewrite H1, H3, H4.
Qed.

(** X15: a calibration of a freshly constructed object with one of the
    four built-in targets and a granted microphone has two possible
    outcomes, and ends idle in both: if some frame after the first ten
    has a level above -80 dB it returns +10 dB on each of the 31 bands;
    otherwise it throws [Error('No valid measurement data collected')].
    Neither the measured levels nor the chosen target or smoothing
    change the returned vector. *)
Theorem calibrate_outcome (rate : R) (stale : list (list R))
    (opts : options) (frames : list (list R)) :
  default "flat"%string (targetCurve opts)
    ∈ ["flat"; "harman"; "b&k"; "custom"]%string ->
  let run :=
    calibrate (idle (set_measurementData (constructor rate) stale))
              opts Granted frames in
  isCalibrating (snd run) = false
  /\ ((exists frame x, frame ∈ drop 10 frames /\ x ∈ frame /\ -80 < x) ->
      fst run = inl (replicate 31 (Num 10)))
  /\ ((forall frame x, frame ∈ drop 10 frames -> x ∈ frame -> x <= -80) ->
      fst run
      = inr (Thrown (Error "No valid measurement data collected"))).
Proof.
  intros Hname run. subst run. unfold calibrate. cbn [isCalibrating idle
    calibration].
  set (this := set_measurementData (constructor rate) stale).
  set (measured := if default false (useTestSignal opts)
                   then measureWithTestSignal this frames
                   else measureWithMusic this frames).
  destruct (measured_fields this frames (default false (useTestSignal opts)))
    as (Hdata & Href & Hcurves).
  fold measured in Hdata, Href, Hcurves.
  change (noiseFloor this) with (-80) in Hdata.
  split; [by destruct (calculateCorrections measured _ _)|]. split.
  - intros (frame & x & Hframe & Hx & Hfl).
    assert (Hin : frame ∈ measurementData measured).
    { rewrite Hdata. apply list_elem_of_filter. split; [|done].
      apply peak_above_exists. by exists x. }
    destruct (measurementData measured) as [|first rest] eqn:Hd;
      [by apply not_elem_of_nil in Hin|].
    destruct (constructor_curves_floor rate _ Hname)
      as (curve & Hcurve & Hlen & Hfloor).
    rewrite (calculateCorrections_high_target measured _ _ curve first rest);
      [done|done| |done|].
    + by rewrite Hcurves.
    + intros t Ht. specialize (Hfloor t Ht). rewrite Href. cbn. lra.
  - intros Hall.
    assert (Hd : measurementData measured = []).
    { rewrite Hdata. apply filter_nil_iff.
      intros frame Hframe (x & Hx & Hfl)%peak_above_exists.
      specialize (Hall frame x Hframe Hx). lra. }
    by rewrite (proj2 (calculateCorrections_error_iff measured _ _) Hd).
Qed.

(** ** Calibration profiles *)

Lemma to_json_numbers (corrections : list jsnum) :
  (forall c, c ∈ corrections -> c <> NaN) ->
  map to_number (map to_json corrections) = corrections.
Proof.
  induction corrections as [|c cs IH]; intros Hall; [done|].
  cbn [map]. rewrite IH by (intros c' Hc'; by apply Hall, list_elem_of_further).
  destruct c as [x|]; [done|].
  by destruct (Hall NaN (list_elem_of_here _ _)).
Qed.

(** X16: what [saveProfile] stores under a name, [loadProfile] returns
    under that name: the corrections with every NaN turned into null,
    the date, and the target 'custom'; corrections that are all numbers
    come back as they were; the profiles under other names are not
    affected. *)
Theorem saveProfile_loadProfile (name : string) (corrections : list jsnum)
    (now : string) (item : storage) :
  name ∉ Object_prototype_properties ->
  loadProfile name (saveProfile name corrections now item)
  = Some {| profile_corrections := map to_json corrections;
            profile_date := now;
            profile_targetCurve := "custom" |}
  /\ ((forall c, c ∈ corrections -> c <> NaN) ->
      exists p,
        loadProfile name (saveProfile name corrections now item) = Some p
        /\ map to_number (profile_corrections p) = corrections)
  /\ (forall other,
        other <> name -> other ∉ Object_prototype_properties ->
        loadProfile other (saveProfile name corrections now item)
        = loadProfile other item).
Proof.
  intros _. unfold loadProfile, saveProfile. cbn [stored_profiles default
    from_option Datatypes.id].
  split; [by rewrite lookup_insert_eq|]. split.
  - intros Hnum. eexists. split; [by rewrite lookup_insert_eq|].
    cbn [profile_corrections]. by apply to_json_numbers.
  - intros other Hne _. by rewrite lookup_insert_ne.
Qed.

(** X17: after [deleteProfile] the name loads as null, whether or not
    it was stored; the profiles under other names are not affected; and
    deleting a name just saved, which was not stored before, leaves
    every name loading as before the save. *)
Theorem deleteProfile_loadProfile (name : string) (item : storage) :
  name ∉ Object_prototype_properties ->
  loadProfile name (deleteProfile name item) = None
  /\ (forall other,
        other <> name -> other ∉ Object_prototype_properties ->
        loadProfile other (deleteProfile name item) = loadProfile other item)
  /\ (forall corrections now other,
        loadProfile name item = None ->
        other ∉ Object_prototype_properties ->
        loadProfile other
          (deleteProfile name (saveProfile name corrections now item))
        = loadProfile other item).
Proof.
  intros _. unfold loadProfile, deleteProfile, saveProfile.
  cbn [stored_profiles default from_option Datatypes.id].
  split; [by rewrite lookup_delete_eq|]. split.
  - intros other Hne _. by rewrite lookup_delete_ne.
  - intros corrections now other Hnone _.
    destruct (decide (other = name)) as [->|Hne].
    + by rewrite lookup_delete_eq.
    + rewrite lookup_delete_ne by done. by rewrite lookup_insert_ne.
Qed.

(** ** generatePinkNoise *)

Lemma sum_list_insert (l : list R) (i : nat) (old x : R) :
  l !! i = Some old -> sum_list (<[i := x]> l) = sum_list l - old + x.
Proof.
  unfold sum_list. revert i. induction l as [|a l IH]; intros i Hi; [done|].
  destruct i as [|i].
  - injection Hi as ->. cbn. lra.
  - change (<[S i := x]> (a :: l)) with (a :: <[i := x]> l).
    change ((a :: l) !! S i) with (l !! i) in Hi.
    cbn [foldr]. rewrite (IH i Hi). lra.
Qed.

Lemma sum_list_bounded (l : list R) :
  (forall r, r ∈ l -> -1 <= r <= 1) ->
  - INR (length l) <= sum_list l <= INR (length l).
Proof.
  unfold sum_list. induction l as [|a l IH]; intros Hall.
  - cbn. lra.
  - cbn [foldr length]. rewrite S_INR.
    assert (-1 <= a <= 1) by apply Hall, list_elem_of_here.
    assert (Hrest := IH (fun r Hr => Hall r (list_elem_of_further _ _ _ Hr))).
    lra.
Qed.

Section PinkNoise.

Variable random : nat -> R.
Hypothesis random_range : forall k, 0 <= random k < 1.

Lemma pink_row_invariant (n : nat) (idx : Z) (row : nat) (st : pink) :
  (row < n)%nat ->
  pink_invariant n st -> pink_invariant n (pink_row random idx row st).
Proof.
  intros Hrow (Hlen & Hrange & Hsum). unfold pink_row.
  case_decide; [|done].
  destruct (lookup_lt_is_Some_2 (rows st) row) as [old Hold]; [lia|].
  rewrite Hold. cbn [default]. unfold pink_invariant.
  cbn [rows runningSum]. split; [by rewrite length_insert|]. split.
  - intros r Hr. apply list_elem_of_lookup in Hr as [j Hj].
    apply list_lookup_insert_Some in Hj as [(_ & <- & _)|[_ Hj]].
    + pose proof (random_range (random_calls st)). lra.
    + apply Hrange. by eapply list_elem_of_lookup_2.
  - rewrite (sum_list_insert _ _ old) by done.
    unfold Datatypes.id. lra.
Qed.

Lemma pink_rows_invariant (n : nat) (rowsToDo : list nat) (idx : Z)
    (st : pink) :
  (forall row, row ∈ rowsToDo -> (row < n)%nat) ->
  pink_invariant n st ->
  pink_invariant n
    (snd (fold_left
            (fun '(idx, st) row =>
               (Z.shiftr (to_int32 idx) 1, pink_row random idx row st))
            rowsToDo (idx, st))).
Proof.
  revert idx st. induction rowsToDo as [|row todo IH]; intros idx st Hlt Hst;
    [done|].
  cbn [fold_left]. apply IH.
  - intros r Hr. by apply Hlt, list_elem_of_further.
  - apply pink_row_invariant; [|done]. apply Hlt, list_elem_of_here.
Qed.

Lemma pink_sample_invariant (n i : nat) (st : pink) :
  pink_invariant n st -> pink_invariant n (pink_sample random n i st).
Proof.
  intros Hst. unfold pink_sample. apply pink_rows_invariant; [|done].
  intros row Hrow%elem_of_seq. lia.
Qed.

Lemma pink_fold (idx : list nat) (st : pink) (data : list R) :
  pink_invariant 16 st ->
  (forall x, x ∈ data -> -8/5 <= x <= 8/5) ->
  let out :=
    snd (fold_left
           (fun '(st, data) i =>
              let st' := pink_sample random 16 i st in
              (st', data ++ [runningSum st' * (1/10)]))
           idx (st, data)) in
  length out = (length data + length idx)%nat
  /\ forall x, x ∈ out -> -8/5 <= x <= 8/5.
Proof.
  revert st data. induction idx as [|i idx IH]; intros st data Hst Hdata out.
  - subst out. cbn. split; [lia|done].
  - subst out. cbn [fold_left].
    pose proof (pink_sample_invariant 16 i st Hst) as Hst'.
    assert (Hnew : forall x,
              x ∈ data ++ [runningSum (pink_sample random 16 i st) * (1/10)] ->
              -8/5 <= x <= 8/5).
    { intros x [Hx|Hx]%elem_of_app; [by apply Hdata|].
      apply list_elem_of_singleton in Hx as ->.
      destruct Hst' as (Hl & Hr & Hs).
      pose proof (sum_list_bounded _ Hr) as Hb.
      rewrite Hl in Hb. rewrite Hs.
      replace (INR 16) with 16 in Hb by (cbn; lra). lra. }
    destruct (IH _ _ Hst' Hnew) as [Hlen Hall].
    split; [|exact Hall].
    etransitivity; [exact Hlen|].
    rewrite length_app. cbn [length]. lia.
Qed.

End PinkNoise.

(** X18: whatever [Math.random] returns within its range [0, 1), the
    pink noise buffer has the requested number of samples and every
    sample lies in [-1.6, 1.6]: the running sum is always the sum of the
    16 row values, each of which stays in [-1, 1). *)
Theorem generatePinkNoise_bounded (random : nat -> R) (length : nat) :
  (forall k, 0 <= random k < 1) ->
  List.length (generatePinkNoise random length) = length
  /\ forall x, x ∈ generatePinkNoise random length -> -8/5 <= x <= 8/5.
Proof.
  intros Hrandom. unfold generatePinkNoise.
  destruct (pink_fold random Hrandom (seq 0 length)
              {| rows := replicate 16 0; runningSum := 0; random_calls := 0 |}
              []) as [Hlen Hall].
  - unfold pink_invariant. cbn [rows runningSum].
    split; [apply length_replicate|]. split.
    + intros r [-> _]%elem_of_replicate. lra.
    + unfold sum_list. cbn. lra.
  - intros x Hx. by apply not_elem_of_nil in Hx.
  - split; [|exact Hall].
    etransitivity; [exact Hlen|]. by rewrite length_seq.
Qed.

(** ** The two variants of averageMeasurements *)

Lemma legacy_accumulate_fold (i : nat) (data : list (list R)) (sum : R) :
  (forall m, m ∈ data -> is_Some (m !! i)) ->
  fold_left (Legacy.accumulate_power i) data (Num sum)
  = Num (sum + sum_list (map (fun v => (Math.pow 10 (v / 20)) ^ 2)
                             (omap (fun m : list R => m !! i) data))).
Proof.
  revert sum. induction data as [|m data IH]; intros sum Hall.
  - cbn. f_equal. lra.
  - destruct (Hall m (list_elem_of_here _ _)) as [v Hv].
    cbn [fold_left omap list_omap]. unfold Legacy.accumulate_power at 2.
    rewrite Hv. cbn [to_number jsnum_map jsnum_map2].
    rewrite IH by (intros m' Hm'; by apply Hall, list_elem_of_further).
    unfold sum_list. cbn [map foldr]. f_equal. ring.
Qed.

Lemma contributions_all (floor : R) (i : nat) (data : list (list R)) :
  (forall m v, m ∈ data -> v ∈ m -> floor < v) ->
  (forall m, m ∈ data -> is_Some (m !! i)) ->
  contributions floor i data = omap (fun m : list R => m !! i) data
  /\ length (contributions floor i data) = length data.
Proof.
  intros Hfl Hdef. induction data as [|m data IH]; [done|].
  destruct (Hdef m (list_elem_of_here _ _)) as [v Hv].
  destruct IH as [IH1 IH2].
  { intros m' w Hm'. by apply Hfl, list_elem_of_further. }
  { intros m' Hm'. by apply Hdef, list_elem_of_further. }
  rewrite contributions_cons. cbn [omap list_omap]. rewrite Hv.
  rewrite decide_True
    by (apply (Hfl m v); [apply list_elem_of_here
                         | by eapply list_elem_of_lookup_2]).
  cbn [length]. split; [by rewrite IH1 | by rewrite IH2].
Qed.

(** X19: on snapshots of equal length whose every level is above the
    noise floor, the gated [averageMeasurements] and the earlier,
    ungated one return the same spectrum: the gate only ever removes
    contributions at or below the floor. *)
Theorem averageMeasurements_agree (this : Calibration) (first : list R)
    (rest : list (list R)) :
  measurementData this = first :: rest ->
  (forall m, m ∈ first :: rest -> length m = length first) ->
  (forall m v, m ∈ first :: rest -> v ∈ m -> noiseFloor this < v) ->
  exists averaged,
    averageMeasurements this = Return averaged
    /\ Legacy.averageMeasurements this = Return (map Num averaged).
Proof.
  intros Hd Hlen Hfl.
  destruct (averageMeasurements_bins this first rest Hd)
    as (averaged & Hret & Hl & Hbins).
  exists averaged. split; [done|].
  unfold Legacy.averageMeasurements. rewrite Hd. f_equal.
  apply list_eq. intros i.
  rewrite (fold_update_lookup (fun i => Some (Legacy.average_bin this i))).
  rewrite list_lookup_fmap.
  destruct (decide (i < length first)%nat) as [Hi|Hi].
  - rewrite lookup_replicate_2 by done.
    rewrite decide_True by (apply elem_of_seq; lia).
    rewrite (Hbins i Hi). cbn. f_equal.
    assert (Hdef : forall m, m ∈ first :: rest -> is_Some (m !! i)).
    { intros m Hm. apply lookup_lt_is_Some. rewrite (Hlen m Hm). done. }
    unfold Legacy.average_bin. rewrite Hd.
    rewrite legacy_accumulate_fold by done. cbn [jsnum_map]. f_equal.
    rewrite average_bin_spec, Hd. unfold spec_average_bin, power_mean_dB.
    destruct (contributions_all (noiseFloor this) i (first :: rest) Hfl Hdef)
      as [Hc1 Hc2].
    rewrite Hc2, Hc1. rewrite decide_False by (cbn; lia).
    by rewrite Rplus_0_l.
  - assert (Hr : replicate (length first) (Num 0) !! i = None)
      by (apply lookup_replicate_None; lia).
    assert (Ha : averaged !! i = None) by (apply lookup_ge_None; lia).
    by rewrite Hr, Ha.
Qed.

(** ** The further statements at concrete inputs *)

Lemma not_inherited (name : string) :
  name = "car"%string \/ name = "nope"%string ->
  name ∉ Object_prototype_properties.
Proof.
  intros [-> | ->] H; unfold Object_prototype_properties in H;
    repeat (apply elem_of_cons in H as [H|H]; [discriminate|]);
    by apply not_elem_of_nil in H.
Qed.

Lemma generateHarmanCurve_decreasing_example :
  length generateHarmanCurve = 31%nat.
Proof. exact (proj1 generateHarmanCurve_decreasing). Defined.

Lemma generateBKCurve_decreasing_example : length generateBKCurve = 31%nat.
Proof. exact (proj1 generateBKCurve_decreasing). Defined.

Lemma calculateCorrections_builtin_constant_example :
  [[-20; -90]] <> []
  /\ "harman"%string ∈ ["flat"; "harman"; "b&k"; "custom"]%string
  /\ calculateCorrections
       (set_measurementData (constructor 48000) [[-20; -90]]) "harman" "1/6"
     = Return (replicate 31 (Num 10)).
Proof.
  assert (Hne : [[-20; -90]] <> []) by discriminate.
  assert (Hn : "harman"%string ∈ ["flat"; "harman"; "b&k"; "custom"]%string)
    by apply list_elem_of_further, list_elem_of_here.
  split; [exact Hne|]. split; [exact Hn|].
  exact (calculateCorrections_builtin_constant 48000 [[-20; -90]]
           "harman" "1/6" Hne Hn).
Defined.



Lemma extractFrequencyResponse_between_example :
  Forall (fun v => noiseFloor example_session <= v <= -10)
         (extractFrequencyResponse example_session [-90; -10] [20]).
Proof.
  apply Forall_forall.
  apply (extractFrequencyResponse_between example_session [-90; -10] [20]
           (-10)).
  - intros x Hx.
    apply elem_of_cons in Hx as [->|Hx]; [lra|].
    apply elem_of_cons in Hx as [->|Hx]; [lra|].
    by apply not_elem_of_nil in Hx.
  - cbn. lra.
Defined.

Lemma quantize_nearest_half_example :
  - (1/4) < quantize (33/10) - 33/10 <= 1/4.
Proof. exact (proj1 (quantize_nearest_half (33/10))). Defined.

Lemma smoothCorrections_ends_example :
  smoothCorrections [Num 1; Num 2] = [Num 1; Num 2].
Proof.
  apply (proj2 (proj2 (proj2 (smoothCorrections_ends [Num 1; Num 2])))).
  cbn. lia.
Defined.

Lemma smoothCorrections_between_example :
  Forall (fun c => exists v, c = Num v /\ IZR 0 / 2 <= v <= IZR 2 / 2)
         (smoothCorrections [Num 0; Num 1; Num 0]).
Proof.
  apply Forall_forall.
  apply (smoothCorrections_between [Num 0; Num 1; Num 0] 0 2).
  intros c Hc.
  apply elem_of_cons in Hc as [->|Hc]; [exists 0; split; [done|lra]|].
  apply elem_of_cons in Hc as [->|Hc]; [exists 1; split; [done|lra]|].
  apply elem_of_cons in Hc as [->|Hc]; [exists 0; split; [done|lra]|].
  by apply not_elem_of_nil in Hc.
Defined.

Lemma session_without_signal_example :
  calculateCorrections (measureWithMusic (constructor 48000) [[-20]; [-20]])
                       "flat" "1/3"
  = Throw (Error "No valid measurement data collected").
Proof.
  apply (proj2 (session_without_signal (constructor 48000) [[-20]; [-20]]
                  "flat" "1/3")).
  cbn. lia.
Defined.

Lemma calculateCorrections_unknown_curve_example :
  calculateCorrections example_session "nope" "1/3" = Throw TypeError.
Proof.
  apply (calculateCorrections_unknown_curve example_session "nope" "1/3"
           [-20; -90] [[-20; -90]] eq_refl).
  - apply not_inherited. by right.
  - change (targetCurves example_session)
      with (targetCurves (constructor 48000)).
    unfold constructor. cbn [targetCurves].
    do 4 rewrite lookup_insert_ne by done. apply lookup_empty.
Defined.

Lemma calibrate_flag_example :
  calibrate {| isCalibrating := true; calibration := example_session |}
            {| duration := None; targetCurve := None; smoothing := None;
               useTestSignal := None |}
            Granted []
  = (inr (Thrown (Error "Calibration already in progress")),
     {| isCalibrating := true; calibration := example_session |}).
Proof.
  exact (proj1 (calibrate_flag
                  {| isCalibrating := true; calibration := example_session |}
                  {| duration := None; targetCurve := None; smoothing := None;
                     useTestSignal := None |}
                  Granted []) eq_refl).
Defined.

Lemma calibrate_outcome_example :
  fst (calibrate (idle (set_measurementData (constructor 48000) []))
                 {| duration := None; targetCurve := None; smoothing := None;
                    useTestSignal := None |}
                 Granted [])
  = inr (Thrown (Error "No valid measurement data collected")).
Proof.
  apply (calibrate_outcome 48000 []
           {| duration := None; targetCurve := None; smoothing := None;
              useTestSignal := None |} []).
  - apply list_elem_of_here.
  - intros frame x Hframe. by apply not_elem_of_nil in Hframe.
Defined.

Lemma saveProfile_loadProfile_example :
  loadProfile "car" (saveProfile "car" [Num 10; NaN] "2024-01-01" None)
  = Some {| profile_corrections := [Some 10; None];
            profile_date := "2024-01-01";
            profile_targetCurve := "custom" |}.
Proof.
  exact (proj1 (saveProfile_loadProfile "car" [Num 10; NaN] "2024-01-01" None
                  (not_inherited "car" (or_introl eq_refl)))).
Defined.

Lemma deleteProfile_loadProfile_example :
  loadProfile "car" (deleteProfile "car" None) = None.
Proof.
  exact (proj1 (deleteProfile_loadProfile "car" None
                  (not_inherited "car" (or_introl eq_refl)))).
Defined.

Lemma generatePinkNoise_bounded_example :
  List.length (generatePinkNoise (fun _ => 1/2) 3) = 3%nat.
Proof.
  apply (generatePinkNoise_bounded (fun _ => 1/2) 3).
  intros k. lra.
Defined.

Lemma averageMeasurements_agree_example :
  exists averaged,
    averageMeasurements loud_session = Return averaged
    /\ Legacy.averageMeasurements loud_session = Return (map Num averaged).
Proof.
  apply (averageMeasurements_agree loud_session [-20; -30] [[-40; -50]]
           eq_refl).
  - intros m Hm.
    apply elem_of_cons in Hm as [->|Hm]; [reflexivity|].
    apply elem_of_cons in Hm as [->|Hm]; [reflexivity|].
    by apply not_elem_of_nil in Hm.
  - intros m v Hm Hv. cbn.
    apply elem_of_cons in Hm as [->|Hm].
    { apply elem_of_cons in Hv as [->|Hv]; [lra|].
      apply elem_of_cons in Hv as [->|Hv]; [lra|].
      by apply not_elem_of_nil in Hv. }
    apply elem_of_cons in Hm as [->|Hm]; [|by apply not_elem_of_nil in Hm].
    apply elem_of_cons in Hv as [->|Hv]; [lra|].
    apply elem_of_cons in Hv as [->|Hv]; [lra|].
    by apply not_elem_of_nil in Hv.
Defined.

(** ** Bands above the noise floor *)

Section BinLoopHits.

Variable floor : R.
Variable fftData : list R.



Lemma scan_bin_count_mono (bin : Z) (st : scan) :
  (scan_count st <= scan_count (scan_bin floor fftData bin st))%nat.
Proof.
  unfold scan_bin. case_decide; [|done].
  destruct (fftData !! Z.to_nat bin); [|done].
  case_decide; cbn [scan_count]; lia.
Qed.

Lemma scan_bins_count_mono (fuel : nat) (bin endBin : Z) (st : scan) :
  (scan_count st
   <= scan_count (scan_bins fuel floor fftData bin endBin st))%nat.
Proof.
  revert bin st. induction fuel as [|fuel IH]; intros bin st;
    cbn [scan_bins]; [done|].
  repeat case_decide; try done.
  etransitivity; [apply (scan_bin_count_mono bin)|apply IH].
Qed.

(** The loop reaches every bin of its window that lies in the array. *)
Lemma scan_bins_hit (fuel : nat) (bin endBin b : Z) (st : scan) (v : R) :
  (bin <= b <= endBin)%Z -> (b - bin + 1 <= Z.of_nat fuel)%Z ->
  (0 <= b)%Z -> fftData !! Z.to_nat b = Some v -> floor < v ->
  (0 < scan_count (scan_bins fuel floor fftData bin endBin st))%nat.
Proof.
  intros Hb Hfuel Hb0 Hv Hfl.
  assert (Hlen : (b < Z.of_nat (length fftData))%Z)
    by (apply lookup_lt_Some in Hv; lia).
  revert bin st Hb Hfuel. induction fuel as [|fuel IH]; intros bin st Hb Hfuel;
    [lia|].
  cbn [scan_bins]. rewrite decide_True by lia. rewrite decide_True by lia.
  destruct (decide (bin = b)) as [->|Hne].
  - eapply Nat.lt_le_trans; [|apply scan_bins_count_mono].
    rewrite (scan_bin_above floor fftData b st v) by done.
    cbn [scan_count]. lia.
  - apply IH; lia.
Qed.



End BinLoopHits.




(** * A run whose corrections are not all +10 dB *)

(** ** The two correction loops at a band on the reference level *)

(** At a band whose response is at the reference level and whose target
    is 0 dB, the loop of [calculateCorrections] pushes +10 dB; the loop
    of the earlier variant pushes 0. *)
Example correction_at_reference (rate : R) :
  let this := constructor rate in
  correction_at [0] [referenceLevel this] 0 = Num 10
  /\ Legacy.correction_at this [0] [referenceLevel this] 0 = Num 0.
Proof.
  intros this. unfold correction_at, Legacy.correction_at. subst this.
  cbn [referenceLevel constructor].
  cbn [lookup list_lookup to_number jsnum_map jsnum_map2]. split.
  - rewrite clamp_high by lra. by rewrite quantize_ten.
  - f_equal. unfold Math.max, Math.min, Rmax, Rmin.
    repeat destruct (Rle_dec _ _); lra.
Qed.

(** The lower clamp, a value rounded from off the 0.5 grid, and a value
    on the grid. *)
Example correction_at_examples :
  correction_at [-60] [-20] 0 = Num (-10)
  /\ correction_at [-23] [-20] 0 = Num (-2)
  /\ correction_at [-20] [-20] 0 = Num 0
  /\ correction_at [-20] [-25] 0 = Num (7/2).
Proof.
  unfold correction_at.
  cbn [lookup list_lookup to_number jsnum_map jsnum_map2].
  unfold Math.max, Math.min, Rmax, Rmin, quantize, Math.round.
  repeat split; f_equal; repeat destruct (Rle_dec _ _); try lra.
  - rewrite (Zfloor_eq (-20)) by lra. lra.
  - rewrite (Zfloor_eq (-4)) by lra. lra.
  - rewrite (Zfloor_eq 0) by lra. lra.
  - rewrite (Zfloor_eq 7) by lra. lra.
Qed.

(** ** A spectrum at one level *)

(** In exact arithmetic a bin at which every snapshot is at one level
    above the floor averages to that level.  (The program computes
    [Math.pow], [Math.sqrt] and [Math.log10] in doubles and stores the
    result in single precision: it returns the level up to that
    rounding.) *)
Lemma average_bin_level (this : Calibration) (first : list R)
    (rest : list (list R)) (i : nat) (L : R) :
  measurementData this = first :: rest ->
  (forall m, m ∈ first :: rest -> m !! i = Some L) ->
  noiseFloor this < L ->
  average_bin this i = L.
Proof.
  intros Hd Hall HL. rewrite average_bin_spec, Hd. unfold spec_average_bin.
  rewrite (contributions_equal _ _ _ L Hall HL). rewrite length_replicate.
  rewrite decide_False by (cbn [length]; lia).
  assert (Hb : L <= power_mean_dB (replicate (length (first :: rest)) L) <= L);
    [|lra].
  apply power_mean_dB_between.
  - intros v Hv. apply elem_of_replicate in Hv as [-> _]. lra.
  - cbn [length replicate]. done.
Qed.

Section LevelSpectrum.

Variables floor L : R.
Variable fftData : list R.

Lemma scan_bin_level (bin : Z) (st : scan) :
  (forall v, fftData !! Z.to_nat bin = Some v -> v = L) ->
  scan_sum st = INR (scan_count st) * L ->
  scan_sum (scan_bin floor fftData bin st)
  = INR (scan_count (scan_bin floor fftData bin st)) * L.
Proof.
  unfold scan_bin. intros Hbin Hst. case_decide; [|done].
  destruct (fftData !! Z.to_nat bin) as [v|] eqn:Hv; [|done].
  case_decide; [|done]. cbn [scan_sum scan_count]. rewrite S_INR.
  rewrite (Hbin v eq_refl). lra.
Qed.

Lemma scan_bins_level (fuel : nat) (bin endBin : Z) (st : scan) :
  (forall b v, (bin <= b <= endBin)%Z -> (0 <= b)%Z ->
               fftData !! Z.to_nat b = Some v -> v = L) ->
  scan_sum st = INR (scan_count st) * L ->
  scan_sum (scan_bins fuel floor fftData bin endBin st)
  = INR (scan_count (scan_bins fuel floor fftData bin endBin st)) * L.
Proof.
  revert bin st. induction fuel as [|fuel IH]; intros bin st Hall Hst;
    cbn [scan_bins]; [done|].
  repeat case_decide; try done. apply IH.
  - intros b v Hb. apply Hall. lia.
  - destruct (decide (0 <= bin)%Z) as [Hb0|Hb0].
    + apply scan_bin_level; [|done]. intros v. apply Hall; lia.
    + by rewrite scan_bin_negative by lia.
Qed.

(** A band all of whose window is at level [L] where it lies in the
    spectrum, and that reaches a bin of the spectrum, is at level
    [L]. *)
Lemma extract_band_level (binWidth freq : R) (b : Z) :
  floor < L ->
  (forall b v,
     (Math.floor (freq / binWidth - 1) <= b
      <= Math.ceil (freq / binWidth + 1))%Z ->
     (0 <= b)%Z -> fftData !! Z.to_nat b = Some v -> v = L) ->
  (Math.floor (freq / binWidth - 1) <= b
   <= Math.ceil (freq / binWidth + 1))%Z ->
  (0 <= b < Z.of_nat (length fftData))%Z ->
  fst (extract_band floor binWidth fftData freq) = L.
Proof.
  intros HL Hall Hb Hb0.
  destruct (lookup_lt_is_Some_2 fftData (Z.to_nat b)) as [v Hv]; [lia|].
  assert (Hv' : v = L) by (apply (Hall b); [done|lia|done]).
  subst v. unfold extract_band. cbn [fst].
  set (st := scan_bins _ _ _ _ _ _).
  assert (Hcount : (0 < scan_count st)%nat).
  { subst st.
    apply (scan_bins_hit floor fftData _ _ _ b _ L); [done|lia|lia|done..]. }
  assert (Hsum : scan_sum st = INR (scan_count st) * L).
  { subst st. apply scan_bins_level; [done|].
    cbn [scan_sum scan_count INR]. lra. }
  rewrite decide_True by done. rewrite Hsum.
  assert (Hn : 0 < INR (scan_count st)) by (by apply lt_0_INR).
  field. lra.
Qed.

End LevelSpectrum.

(** The bin under the center of a window is inside the window. *)
Lemma center_bin_window (c : R) (n : nat) :
  0 <= c < INR n ->
  (Math.floor (c - 1) <= Zfloor c <= Math.ceil (c + 1))%Z
  /\ (0 <= Zfloor c < Z.of_nat n)%Z.
Proof.
  intros Hc. unfold Math.floor, Math.ceil.
  pose proof (Zfloor_bound c) as [Hlow Hup].
  pose proof (Zceil_bound (c + 1)) as [_ Hceil].
  repeat split.
  - apply Zfloor_le. lra.
  - apply le_IZR. lra.
  - apply Zfloor_lub. lra.
  - apply lt_IZR. rewrite <- INR_IZR_INZ. lra.
Qed.

(** A band below the Nyquist frequency has its center inside the
    spectrum. *)
Lemma center_bin_range (this : Calibration) (fftData : list R) (freq : R) :
  0 < sampleRate this -> fftData <> [] ->
  0 <= freq < sampleRate this / 2 ->
  0 <= freq / binWidth_of this fftData < INR (length fftData).
Proof.
  intros Hrate Hne Hf. unfold binWidth_of. cbv zeta.
  set (n := INR (length fftData)).
  assert (Hn : 0 < n).
  { subst n. apply lt_0_INR. destruct fftData; [done|cbn [length]; lia]. }
  set (nyquist := sampleRate this / 2) in *.
  assert (Hny : 0 < nyquist) by (subst nyquist; lra).
  replace (freq / (nyquist / n)) with (freq / nyquist * n) by (field; lra).
  assert (Hq : 0 <= freq / nyquist < 1).
  { split.
    - apply Rmult_le_reg_r with nyquist; [done|].
      replace (freq / nyquist * nyquist) with freq by (field; lra). lra.
    - apply Rmult_lt_reg_r with nyquist; [done|].
      replace (freq / nyquist * nyquist) with freq by (field; lra). lra. }
  split; nra.
Qed.

(** On a spectrum that is at one level above the floor, every band
    below the Nyquist frequency is at that level. *)
Lemma extractFrequencyResponse_level (this : Calibration)
    (fftData targetFrequencies : list R) (L : R) :
  (forall x, x ∈ fftData -> x = L) ->
  noiseFloor this < L ->
  0 < sampleRate this -> fftData <> [] ->
  (forall f, f ∈ targetFrequencies -> 0 <= f < sampleRate this / 2) ->
  extractFrequencyResponse this fftData targetFrequencies
  = replicate (length targetFrequencies) L.
Proof.
  intros Hall HL Hrate Hne Hfs. rewrite extractFrequencyResponse_map.
  symmetry. apply replicate_as_elem_of. split; [by rewrite length_map|].
  intros v Hv. apply list_elem_of_fmap in Hv as (f & -> & Hf).
  destruct (center_bin_window (f / binWidth_of this fftData)
              (length fftData)) as [Hwin Hin].
  { apply center_bin_range; [done..|]. by apply Hfs. }
  apply (extract_band_level _ _ _ _ _
           (Zfloor (f / binWidth_of this fftData))); [done| |done..].
  intros b v _ _ Hv. apply Hall. by eapply list_elem_of_lookup_2.
Qed.

Lemma applySmoothing_band (this : Calibration) (data : list R)
    (smoothingType : string) (i : nat) :
  applySmoothing this data smoothingType !! i = data !! i.
Proof.
  rewrite applySmoothing_lookup. unfold smoothed_over.
  destruct (data !! i) as [x|] eqn:Hx; [|by destruct (frequencies !! i)].
  destruct (frequencies !! i) as [f|] eqn:Hf; [|done].
  assert (Hq : 0 <= octaveFraction_of smoothingType <= 1/3)
    by (destruct (octaveFraction_of_cases smoothingType) as [->|[->| ->]]; lra).
  destruct (window_factor_bounds _ Hq) as [Hlo Hhi].
  unfold window_lower, window_upper. cbv zeta.
  rewrite (window_values_own_band _ _ _ _ i f Hlo Hhi Hf), Hx.
  destruct (decide (noiseFloor this < x)).
  - rewrite decide_False by done. by rewrite mean_singleton.
  - by rewrite decide_True.
Qed.

Lemma max_of_replicate (n : nat) (L : R) :
  Math.max_of (replicate (S n) L) = Some L.
Proof.
  cbn [replicate]. rewrite max_of_cons. f_equal.
  induction n as [|n IH]; [done|].
  cbn [replicate fold_left]. rewrite Rmax_left by lra. exact IH.
Qed.

(** With every retained snapshot at one level above the floor, the
    normalized response is the reference level at every band, and the
    result is the neighbour-smoothed loop over the stored curve. *)
Lemma calculateCorrections_level (this : Calibration)
    (targetCurveName smoothing : string) (first : list R)
    (rest : list (list R)) (L : R) (curve : list R) :
  measurementData this = first :: rest ->
  first <> [] ->
  (forall m i, m ∈ first :: rest -> (i < length first)%nat ->
               m !! i = Some L) ->
  noiseFloor this < L ->
  (forall f, f ∈ frequencies -> f < sampleRate this / 2) ->
  targetCurves this !! targetCurveName = Some curve ->
  calculateCorrections this targetCurveName smoothing
  = Return
      (smoothCorrections
         (map (correction_at curve (replicate 31 (referenceLevel this)))
              (seq 0 31))).
Proof.
  intros Hd Hne Hall HL Hny Hcurve. unfold calculateCorrections.
  rewrite decide_False by (by rewrite Hd).
  destruct (averageMeasurements_bins this first rest Hd)
    as (averaged & -> & Hlen & Hbins).
  unfold mbind at 1, completion_bind at 1. cbv zeta.
  assert (Hrate : 0 < sampleRate this).
  { assert (H20 : (20 : R) ∈ frequencies) by apply list_elem_of_here.
    specialize (Hny 20 H20). lra. }
  assert (Havg : forall x, x ∈ averaged -> x = L).
  { intros x Hx. apply list_elem_of_lookup in Hx as [i Hi].
    assert (Hlt : (i < length first)%nat)
      by (apply lookup_lt_Some in Hi; lia).
    rewrite (Hbins i Hlt) in Hi. injection Hi as <-.
    apply (average_bin_level this first rest); [done| |done].
    intros m Hm. by apply Hall. }
  assert (Hresponse : extractFrequencyResponse this averaged getFrequencies
                      = replicate 31 L).
  { rewrite (extractFrequencyResponse_level this averaged getFrequencies L);
      [done|done|done|done| |].
    - intros ->. destruct first; [done|discriminate].
    - intros f Hf. split; [|by apply Hny].
      apply frequencies_range in Hf. lra. }
  assert (Hsmoothed : applySmoothing this (replicate 31 L) smoothing
                      = replicate 31 L)
    by (apply list_eq; intros i; apply applySmoothing_band).
  rewrite Hresponse, Hsmoothed, (max_of_replicate 30 L).
  rewrite Hcurve, correction_loop_some.
  change (map (fun v : R => v - L + referenceLevel this) (replicate 31 L))
    with ((fun v : R => v - L + referenceLevel this) <$> replicate 31 L).
  rewrite fmap_replicate.
  replace (L - L + referenceLevel this) with (referenceLevel this) by lra.
  reflexivity.
Qed.

(** ** A stored curve near the reference level *)

Lemma stepped_loop (i : nat) :
  (i < 31)%nat ->
  map (correction_at stepped_curve (replicate 31 (-20))) (seq 0 31) !! i
  = Some (match i with
          | 0%nat => Num (-10)
          | 1%nat => Num (-2)
          | _ => Num 0
          end).
Proof.
  intros Hi. rewrite list_lookup_fmap, lookup_seq_lt by done.
  cbn [fmap option_fmap option_map Nat.add]. f_equal.
  unfold correction_at. rewrite lookup_replicate_2 by done.
  assert (Hq : forall t c : R, (t - -20) * (7/10) = c -> -10 <= c <= 10 ->
            jsnum_map quantize
              (jsnum_map (fun c => Math.max (-10) (Math.min 10 c))
                 (jsnum_map (fun c => c * (7/10))
                    (jsnum_map2 Rminus (Num t) (Num (-20)))))
            = Num (quantize c)).
  { intros t c <- Hc. cbn [jsnum_map jsnum_map2]. do 2 f_equal.
    unfold Math.max, Math.min, Rmax, Rmin.
    repeat destruct (Rle_dec _ _); lra. }
  destruct i as [|[|i]].
  - cbn [stepped_curve lookup list_lookup to_number jsnum_map jsnum_map2].
    f_equal. unfold Math.max, Math.min, Rmax, Rmin, quantize, Math.round.
    repeat destruct (Rle_dec _ _); try lra.
    rewrite (Zfloor_eq (-20)) by lra. lra.
  - cbn [stepped_curve lookup list_lookup to_number].
    rewrite (Hq (-23) (-21/10)) by lra. f_equal.
    unfold quantize, Math.round. rewrite (Zfloor_eq (-4)) by lra. lra.
  - change (stepped_curve !! S (S i)) with (replicate 29 (-20) !! i).
    rewrite lookup_replicate_2 by lia. cbn [to_number].
    rewrite (Hq (-20) 0) by lra. f_equal.
    unfold quantize, Math.round. rewrite (Zfloor_eq 0) by lra. lra.
Qed.

(** On [stepped_session] the normalized response is -20 dB at every
    band; the loop gives -10 dB (the lower clamp of -28), -2 dB (-2.1
    rounded to the 0.5 grid) and 0 dB from the third band on, and
    [smoothCorrections] turns the second and third bands into the
    re-quantized means -4 dB and -0.5 dB. *)
Example calculateCorrections_stepped (smoothing : string) :
  exists corrections,
    calculateCorrections stepped_session "custom" smoothing
    = Return corrections
    /\ corrections !! 0%nat = Some (Num (-10))
    /\ corrections !! 1%nat = Some (Num (-4))
    /\ corrections !! 2%nat = Some (Num (-1/2))
    /\ forall i, (3 <= i < 31)%nat -> corrections !! i = Some (Num 0).
Proof.
  eexists. split.
  { apply (calculateCorrections_level stepped_session "custom" smoothing
             level_snapshot (replicate 19 level_snapshot) (-20)
             stepped_curve).
    - reflexivity.
    - unfold level_snapshot. discriminate.
    - intros m i Hm Hi.
      assert (Hsame : m = level_snapshot).
      { apply elem_of_cons in Hm as [->|Hm]; [done|].
        by apply elem_of_replicate in Hm as [-> _]. }
      subst m. unfold level_snapshot in *.
      rewrite length_replicate in Hi. by apply lookup_replicate_2.
    - cbn [noiseFloor stepped_session assign_custom set_targetCurves
           set_measurementData constructor]. lra.
    - intros f Hf. apply frequencies_range in Hf.
      cbn [sampleRate stepped_session assign_custom set_targetCurves
           set_measurementData constructor]. lra.
    - unfold stepped_session, assign_custom, set_targetCurves.
      cbn [targetCurves]. apply lookup_insert_eq. }
  change (referenceLevel stepped_session) with (-20).
  set (loop := map _ (seq 0 31)).
  assert (Hlen : length loop = 31%nat)
    by (subst loop; by rewrite length_map, length_seq).
  assert (Hloop : forall i, (i < 31)%nat ->
            loop !! i = Some (match i with
                              | 0%nat => Num (-10)
                              | 1%nat => Num (-2)
                              | _ => Num 0
                              end))
    by (intros i Hi; subst loop; by apply stepped_loop).
  assert (Hmid : forall i, (1 <= i < 30)%nat ->
            smoothCorrections loop !! i = Some (smooth_at loop i)).
  { intros i Hi. rewrite smoothCorrections_lookup, Hloop by lia.
    rewrite Hlen. rewrite decide_True; [done|]. apply elem_of_seq. lia. }
  assert (Hquant : forall a b c q : R, (a + b + c) / 3 = q ->
            jsnum_map quantize
              (jsnum_map (fun s => s / 3)
                 (jsnum_map2 Rplus (jsnum_map2 Rplus (Num a) (Num b)) (Num c)))
            = Num (quantize q)).
  { intros a b c q <-. reflexivity. }
  split; [|split; [|split]].
  - rewrite smoothCorrections_lookup, Hloop by lia. rewrite Hlen.
    rewrite decide_False; [done|]. rewrite elem_of_seq. lia.
  - rewrite Hmid by lia. unfold smooth_at.
    rewrite !Hloop by lia. cbn [Nat.sub Nat.add default Datatypes.id].
    rewrite (Hquant _ _ _ (-4)) by lra. do 2 f_equal.
    unfold quantize, Math.round. rewrite (Zfloor_eq (-8)) by lra. lra.
  - rewrite Hmid by lia. unfold smooth_at.
    rewrite !Hloop by lia. cbn [Nat.sub Nat.add default Datatypes.id].
    rewrite (Hquant _ _ _ (-2/3)) by lra. do 2 f_equal.
    unfold quantize, Math.round. rewrite (Zfloor_eq (-1)) by lra. lra.
  - intros i Hi. destruct (decide (i = 30%nat)) as [->|Hne].
    + rewrite smoothCorrections_lookup, Hloop by lia. rewrite Hlen.
      rewrite decide_False; [done|]. rewrite elem_of_seq. lia.
    + rewrite Hmid by lia. unfold smooth_at.
      rewrite !Hloop by lia.
      destruct i as [|[|[|i]]]; [lia..|].
      replace (S (S (S i)) - 1)%nat with (S (S i)) by lia.
      replace (S (S (S i)) + 1)%nat with (S (S (S (S i)))) by lia.
      destruct i as [|i]; cbn [default Datatypes.id];
        rewrite (Hquant _ _ _ 0) by lra; do 2 f_equal;
        unfold quantize, Math.round; rewrite (Zfloor_eq 0) by lra; lra.
Qed.

(** ** The plateau of the end-to-end scenario *)

Lemma scenario_snapshot_plateau (k : nat) :
  (169 <= k <= 172)%nat -> scenario_snapshot !! k = Some (-20).
Proof.
  intros Hk. unfold scenario_snapshot.
  rewrite list_lookup_fmap, lookup_seq_lt by lia.
  cbn [fmap option_fmap option_map Nat.add]. f_equal.
  assert (Hlow : IZR (Z.of_nat 169) <= INR k)
    by (rewrite <- INR_IZR_INZ; apply le_INR; lia).
  assert (Hup : INR k <= IZR (Z.of_nat 172))
    by (rewrite <- INR_IZR_INZ; apply le_INR; lia).
  change (Z.of_nat 169) with 169%Z in Hlow.
  change (Z.of_nat 172) with 172%Z in Hup.
  rewrite decide_True; [done|]. lra.
Qed.

(** In the scenario the response at 1 kHz, a band inside the plateau,
    is at the reference level, whatever the smoothing; the loop of the
    earlier variant, run on that response, gives 0 dB for it. *)
Lemma scenario_plateau_response (smoothing : string) :
  exists averaged smoothed,
    averageMeasurements scenario = Return averaged
    /\ smoothed
       = applySmoothing scenario
           (extractFrequencyResponse scenario averaged getFrequencies)
           smoothing
    /\ smoothed !! 17%nat = Some (referenceLevel scenario)
    /\ Legacy.correction_at scenario (replicate 31 0) smoothed 17 = Num 0.
Proof.
  destruct (averageMeasurements_bins scenario _ _ scenario_data)
    as (averaged & Hret & Hlen & Hbins).
  assert (Hsnap : length scenario_snapshot = 4096%nat)
    by (unfold scenario_snapshot; by rewrite length_map, length_seq).
  rewrite Hsnap in Hlen, Hbins.
  assert (Hfloor : noiseFloor scenario < -20) by (cbn; lra).
  assert (Hplateau : forall k, (169 <= k <= 172)%nat ->
            averaged !! k = Some (-20)).
  { intros k Hk. rewrite Hbins by lia. f_equal.
    apply (average_bin_level scenario _ _ k (-20) scenario_data); [|done].
    intros m Hm.
    assert (Hsame : m = scenario_snapshot).
    { apply elem_of_cons in Hm as [->|Hm]; [done|].
      by apply elem_of_replicate in Hm as [-> _]. }
    subst m. by apply scenario_snapshot_plateau. }
  assert (Hwidth : binWidth_of scenario averaged = 24000 / 4096).
  { unfold binWidth_of. rewrite Hlen, INR_IZR_INZ.
    change (Z.of_nat 4096) with 4096%Z. cbn [sampleRate scenario
      set_measurementData constructor]. lra. }
  assert (Hband : extractFrequencyResponse scenario averaged getFrequencies
                    !! 17%nat = Some (-20)).
  { rewrite extractFrequencyResponse_map, list_lookup_fmap.
    change (getFrequencies !! 17%nat) with (Some 1000).
    cbn [fmap option_fmap option_map]. f_equal. rewrite Hwidth.
    assert (Hstart : Math.floor (1000 / (24000 / 4096) - 1) = 169%Z)
      by (unfold Math.floor; apply Zfloor_eq; lra).
    assert (Hend : Math.ceil (1000 / (24000 / 4096) + 1) = 172%Z)
      by (unfold Math.ceil; apply Zceil_eq; lra).
    apply (extract_band_level _ _ _ _ _ 170%Z); [done| | |].
    - rewrite Hstart, Hend. intros b v Hb _ Hv.
      rewrite (Hplateau (Z.to_nat b)) in Hv by lia. by injection Hv as <-.
    - rewrite Hstart, Hend. lia.
    - rewrite Hlen. lia. }
  eexists averaged, _. split; [done|]. split; [reflexivity|].
  assert (Hsm : applySmoothing scenario
                  (extractFrequencyResponse scenario averaged getFrequencies)
                  smoothing !! 17%nat = Some (-20))
    by (by rewrite applySmoothing_band).
  split; [exact Hsm|].
  unfold Legacy.correction_at. rewrite Hsm.
  rewrite lookup_replicate_2 by lia.
  cbn [to_number jsnum_map jsnum_map2 referenceLevel scenario
       set_measurementData constructor].
  f_equal. unfold Math.max, Math.min, Rmax, Rmin.
  repeat destruct (Rle_dec _ _); lra.
Qed.
